(** * ServerDetailsBlock: the live resource panel of a server console

    A shallow embedding of
    [resources/scripts/components/server/console/ServerDetailsBlock.tsx]
    together with the fragment of ECMAScript the component relies on
    (numbers and their decimal forms, truthiness, property reads on
    untyped values, [JSON.parse], [useEffect] dependency tracking), and
    the properties of the panel's display model. *)

From Stdlib Require Import List String Ascii Bool ZArith Lia DecimalString.
From Stdlib Require Import Floats.
Import ListNotations.

Local Open Scope list_scope.
Local Open Scope string_scope.

(* ================================================================= *)
(** ** Numbers: IEEE 754 binary64 and its decimal notations *)

Module EsNumber.

(** A JavaScript [number] is an IEEE 754 binary64 value. *)
Definition number := float.

Local Open Scope Z_scope.

(** The binary64 value nearest to [(-1)^neg * m * 10^e] (ties to even),
    which is the value ECMAScript gives a decimal literal. *)
Definition dec2float (neg : bool) (m e : Z) : number :=
  SF2Prim
    match m with
    | Zpos p =>
        if 0 <=? e
        then binary_round prec emax neg (p * Z.to_pos (10 ^ e)) 0
        else SFdiv prec emax (S754_finite neg p 0)
                             (S754_finite false (Z.to_pos (10 ^ (- e))) 0)
    | _ => S754_zero neg
    end.

(** Decimal numeral of a non-negative integer. *)
Definition decimal (n : Z) : string :=
  NilZero.string_of_uint (N.to_uint (Z.to_N n)).

Fixpoint zeros (n : nat) : string :=
  match n with
  | O => ""
  | S n' => String "0" (zeros n')
  end.

(** The exact magnitude [num / den] of a finite float [m * 2 ^ e]. *)
Definition magnitude (m : positive) (e : Z) : Z * Z :=
  if 0 <=? e then (Zpos m * 2 ^ e, 1) else (Zpos m, 2 ^ (- e)).

(** [num / den] divided by [10 ^ ex], as a fraction. *)
Definition scaled (num den ex : Z) : Z * Z :=
  if 0 <=? ex then (num, den * 10 ^ ex) else (num * 10 ^ (- ex), den).

(** The least [n >= from] with [num / den < 10 ^ n]. *)
Fixpoint magnitude10 (fuel : nat) (num den from : Z) : Z :=
  match fuel with
  | O => from
  | S fuel' =>
      let '(N, D) := scaled num den from in
      if N <? D then from else magnitude10 fuel' num den (from + 1)
  end.

(** The [n] with [10 ^ (n - 1) <= num / den < 10 ^ n], searched upwards
    from a lower estimate taken from the binary lengths. *)
Definition exponent10 (num den : Z) : Z :=
  let bits := Z.log2 num - Z.log2 den in
  magnitude10 8 num den ((bits - 1) * 30103 / 100000 - 1).

Fixpoint strip_zeros (fuel : nat) (s : Z) : Z :=
  match fuel with
  | O => s
  | S fuel' =>
      if (s mod 10 =? 0) && negb (s =? 0)
      then strip_zeros fuel' (s / 10)
      else s
  end.

(** The shortest decimal [c * 10 ^ (n - k)] that reads back as [x],
    trying [k], [k + 1], ... significant digits; of two candidates the
    one nearer to [x], the even one on a tie. *)
Fixpoint shortest (fuel : nat) (x : number) (num den n k : Z) : Z * Z :=
  let '(N, D) := scaled num den (n - k) in
  let lo := N / D in
  let r := N mod D in
  let hi := lo + 1 in
  let reads c := (dec2float false c (n - k) =? x)%float in
  match fuel with
  | O => (lo, k)
  | S fuel' =>
      if r =? 0 then (lo, k)
      else
        match reads lo, reads hi with
        | true, true =>
            match 2 * r ?= D with
            | Lt => (lo, k)
            | Gt => (hi, k)
            | Eq => if Z.even lo then (lo, k) else (hi, k)
            end
        | true, false => (lo, k)
        | false, true => (hi, k)
        | false, false => shortest fuel' x num den n (k + 1)
        end
  end.

Definition exponent_suffix (e : Z) : string :=
  "e" ++ (if e <? 0 then "-" else "+") ++ decimal (Z.abs e).

(** Layout of the digits [ds] of the number [0.ds * 10 ^ n]. *)
Definition layout (ds : string) (n : Z) : string :=
  let k := Z.of_nat (String.length ds) in
  if (k <=? n) && (n <=? 21) then ds ++ zeros (Z.to_nat (n - k))
  else if (0 <? n) && (n <=? 21) then
    substring 0 (Z.to_nat n) ds ++ "."
    ++ substring (Z.to_nat n) (Z.to_nat (k - n)) ds
  else if (-6 <? n) && (n <=? 0) then "0." ++ zeros (Z.to_nat (- n)) ++ ds
  else if k =? 1 then ds ++ exponent_suffix (n - 1)
  else substring 0 1 ds ++ "." ++ substring 1 (Z.to_nat (k - 1)) ds
       ++ exponent_suffix (n - 1).

(** [Number::toString(x, 10)]. *)
Definition Number_toString (x : number) : string :=
  match Prim2SF x with
  | S754_nan => "NaN"
  | S754_zero _ => "0"
  | S754_infinity s => if s then "-Infinity" else "Infinity"
  | S754_finite s m e =>
      let '(num, den) := magnitude m e in
      let n := exponent10 num den in
      let '(c, k) := shortest 17 (abs x) num den n 1 in
      let n' := if c =? 10 ^ k then n + 1 else n in
      (if s then "-" else "") ++ layout (decimal (strip_zeros 20 c)) n'
  end.

(** [Number.prototype.toFixed(f)] applied to a number: the integer [n]
    for which [n / 10 ^ f] is nearest to [x], the larger one on a tie. *)
Definition Number_toFixed (x : number) (f : nat) : string :=
  match Prim2SF x with
  | S754_finite s m e =>
      let '(num, den) := magnitude m e in
      if 10 ^ 21 * den <=? num then Number_toString x
      else
        let n := (2 * num * 10 ^ Z.of_nat f + den) / (2 * den) in
        let ds := decimal n in
        let ds := zeros (S f - String.length ds)%nat ++ ds in
        let k := String.length ds in
        (if s then "-" else "")
        ++ substring 0 (k - f)%nat ds
        ++ match f with
           | O => ""
           | S _ => "." ++ substring (k - f)%nat f ds
           end
  | S754_zero _ =>
      match f with
      | O => "0"
      | S _ => "0." ++ zeros f
      end
  | _ => Number_toString x
  end.

Definition is_digit (c : ascii) : bool :=
  ((48 <=? nat_of_ascii c) && (nat_of_ascii c <=? 57))%nat.

Definition digit_val (c : ascii) : Z := Z.of_nat (nat_of_ascii c - 48).

(** Reads a possibly empty run of decimal digits, extending the
    numeral [acc]; also returns how many digits were read. *)
Fixpoint digits (s : string) (acc : Z) (count : Z) : Z * Z * string :=
  match s with
  | String c r =>
      if is_digit c then digits r (10 * acc + digit_val c) (count + 1)
      else (acc, count, s)
  | EmptyString => (acc, count, s)
  end.

(** The rest of [s] when it starts with [c]. *)
Definition take (c : ascii) (s : string) : option string :=
  match s with
  | String d r => if (d =? c)%char then Some r else None
  | EmptyString => None
  end.

Definition exp_digits (s : string) : option (Z * string) :=
  let '(x, n, r) := digits s 0 0 in
  if (n =? 0) then None else Some (x, r).

(** [ExponentPart], optional: [e] or [E], an optional sign, at least one
    digit. *)
Definition exp_part (s : string) : option (Z * string) :=
  match s with
  | String c r =>
      if (c =? "e")%char || (c =? "E")%char then
        match take "+" r with
        | Some r' => exp_digits r'
        | None =>
            match take "-" r with
            | Some r' =>
                match exp_digits r' with
                | Some (x, r'') => Some (- x, r'')
                | None => None
                end
            | None => exp_digits r
            end
        end
      else Some (0, s)
  | EmptyString => Some (0, s)
  end.

(** UTF-8 encoding of a code point (a lone surrogate is encoded like
    any other three-byte code point). *)
Definition utf8 (cp : N) : string :=
  let b (n : N) := ascii_of_N n in
  (if cp <? 128 then String (b cp) EmptyString
   else if cp <? 2048 then
     String (b (192 + cp / 64)) (String (b (128 + cp mod 64)) EmptyString)
   else if cp <? 65536 then
     String (b (224 + cp / 4096))
       (String (b (128 + (cp / 64) mod 64))
          (String (b (128 + cp mod 64)) EmptyString))
   else
     String (b (240 + cp / 262144))
       (String (b (128 + (cp / 4096) mod 64))
          (String (b (128 + (cp / 64) mod 64))
             (String (b (128 + cp mod 64)) EmptyString))))%N.

(** [StrWhiteSpaceChar]: white space and line terminators. *)
Definition StrWhiteSpaceChar : list string :=
  map utf8
    [9; 10; 11; 12; 13; 32; 160; 5760; 8192; 8193; 8194; 8195; 8196; 8197;
     8198; 8199; 8200; 8201; 8202; 8232; 8233; 8239; 8287; 12288; 65279]%N.

Fixpoint strip_prefix (p s : string) : option string :=
  match p, s with
  | EmptyString, _ => Some s
  | String a p', String b s' => if (a =? b)%char then strip_prefix p' s' else None
  | String _ _, EmptyString => None
  end.

Fixpoint strip_any (ps : list string) (s : string) : option string :=
  match ps with
  | [] => None
  | p :: ps' =>
      match strip_prefix p s with
      | Some r => Some r
      | None => strip_any ps' s
      end
  end.

Fixpoint trim_start (fuel : nat) (s : string) : string :=
  match fuel with
  | O => s
  | S fuel' =>
      match strip_any StrWhiteSpaceChar s with
      | Some r => trim_start fuel' r
      | None => s
      end
  end.

(** Digits of a non-decimal integer literal in the given radix. *)
Definition radix_digit (radix : Z) (c : ascii) : option Z :=
  let n := Z.of_nat (nat_of_ascii c) in
  let d := if (48 <=? n) && (n <=? 57) then n - 48
           else if (97 <=? n) && (n <=? 102) then n - 87
           else if (65 <=? n) && (n <=? 70) then n - 55
           else 99 in
  if d <? radix then Some d else None.

Fixpoint radix_digits (radix : Z) (s : string) (acc count : Z)
  : Z * Z * string :=
  match s with
  | String c r =>
      match radix_digit radix c with
      | Some d => radix_digits radix r (radix * acc + d) (count + 1)
      | None => (acc, count, s)
      end
  | EmptyString => (acc, count, s)
  end.

(** [NonDecimalIntegerLiteral]: [0b], [0o] or [0x] and digits. *)
Definition non_decimal (s : string) : option (number * string) :=
  match take "0" s with
  | Some (String c r) =>
      let radix :=
        if (c =? "x")%char || (c =? "X")%char then 16
        else if (c =? "o")%char || (c =? "O")%char then 8
        else if (c =? "b")%char || (c =? "B")%char then 2
        else 0 in
      if radix =? 0 then None
      else
        let '(n, count, r') := radix_digits radix r 0 0 in
        if count =? 0 then None else Some (dec2float false n 0, r')
  | _ => None
  end.

(** [StrUnsignedDecimalLiteral] with the sign already read. *)
Definition unsigned_decimal (neg : bool) (s : string)
  : option (number * string) :=
  match strip_prefix "Infinity" s with
  | Some r => Some (if neg then neg_infinity else infinity, r)
  | None =>
      let '(m, n_int, r1) := digits s 0 0 in
      let '(m', n_frac, r2) :=
        match take "." r1 with
        | Some r => digits r m 0
        | None => (m, 0, r1)
        end in
      if n_int + n_frac =? 0 then None
      else
        match exp_part r2 with
        | Some (x, r3) => Some (dec2float neg m' (x - n_frac), r3)
        | None => None
        end
  end.

(** [StrNumericLiteral]. *)
Definition numeric_literal (s : string) : option (number * string) :=
  match non_decimal s with
  | Some r => Some r
  | None =>
      match take "+" s with
      | Some r => unsigned_decimal false r
      | None =>
          match take "-" s with
          | Some r => unsigned_decimal true r
          | None => unsigned_decimal false s
          end
      end
  end.

(** [StringToNumber]: the empty or blank string is [+0], a
    [StrNumericLiteral] between optional white space is its value, and
    everything else is [NaN]. *)
Definition StringToNumber (s : string) : number :=
  match trim_start (String.length s) s with
  | EmptyString => 0%float
  | t =>
      match numeric_literal t with
      | Some (x, rest) =>
          match trim_start (String.length rest) rest with
          | EmptyString => x
          | String _ _ => nan
          end
      | None => nan
      end
  end.

End EsNumber.

Export EsNumber.

(* ================================================================= *)
(** ** ECMAScript values and the operators the component applies to them *)

Module Js.

(** The values [JSON.parse] can produce, plus [undefined], which a
    property read yields for an absent key. *)
#[local] Unset Elimination Schemes.
Inductive value : Type :=
| undefined
| null
| VBool (b : bool)
| VNum (n : number)
| VStr (s : string)
| VArr (elements : list value)
| VObj (members : list (string * value)).
#[local] Set Elimination Schemes.

(** Exceptions raised by the operations modelled here. *)
Inductive error : Type := TypeError | SyntaxError.

(** A computation that either completes normally or throws. *)
Inductive result (A : Type) : Type :=
| Ok (a : A)
| Throw (e : error).

Arguments Ok {A} a.
Arguments Throw {A} e.

Definition bind {A B : Type} (r : result A) (k : A -> result B) : result B :=
  match r with
  | Ok a => k a
  | Throw e => Throw e
  end.

Notation "x <- r ;; k" := (bind r (fun x => k))
  (at level 61, r at next level, right associativity).

Definition is_ok {A : Type} (r : result A) : bool :=
  match r with Ok _ => true | Throw _ => false end.

(** [ToBoolean] on a number: [+0], [-0] and [NaN] are falsy. *)
Definition number_truthy (n : number) : bool :=
  negb ((n =? 0)%float || is_nan n).

(** [ToBoolean] on a string: only the empty string is falsy. *)
Definition string_truthy (s : string) : bool :=
  match s with
  | EmptyString => false
  | String _ _ => true
  end.

(** [ToBoolean]. *)
Definition truthy (v : value) : bool :=
  match v with
  | undefined | null => false
  | VBool b => b
  | VNum n => number_truthy n
  | VStr s => string_truthy s
  | VArr _ | VObj _ => true
  end.

(** [a || b] on values. *)
Definition or_else (a b : value) : value :=
  if truthy a then a else b.

(** Own-property lookup in an object built by [JSON.parse]: when a key
    occurs more than once the last occurrence is the one that is kept. *)
Fixpoint lookup (key : string) (members : list (string * value)) : option value :=
  match members with
  | [] => None
  | (k, v) :: rest =>
      match lookup key rest with
      | Some v' => Some v'
      | None => if String.eqb k key then Some v else None
      end
  end.

(** The member expression [v.key], for a [key] that no built-in
    prototype defines ([memory_bytes], [cpu_absolute], [disk_bytes],
    [uptime]): reading it off [undefined] or [null] throws, an object
    yields its own property, and every other value yields [undefined]. *)
Definition get (v : value) (key : string) : result value :=
  match v with
  | undefined | null => Throw TypeError
  | VObj members =>
      match lookup key members with
      | Some x => Ok x
      | None => Ok undefined
      end
  | VBool _ | VNum _ | VStr _ | VArr _ => Ok undefined
  end.

(** [Array.prototype.join] with the default separator, given the
    conversion of one element. *)
Definition join (element : value -> result string)
  : list value -> result string :=
  fix join (l : list value) : result string :=
    match l with
    | [] => Ok ""
    | [x] => element x
    | x :: rest =>
        first <- element x ;;
        others <- join rest ;;
        Ok (first ++ "," ++ others)
    end.

(** [ToString].  An array goes through [Array.prototype.join], whose
    [undefined] and [null] elements contribute the empty string.  An
    object built by [JSON.parse] goes through [ToPrimitive]: an own
    [toString] member is a piece of data and not callable, the
    inherited [valueOf] returns the object itself, so the conversion
    throws; without that member [Object.prototype.toString] answers. *)
Fixpoint ToString (v : value) : result string :=
  match v with
  | undefined => Ok "undefined"
  | null => Ok "null"
  | VBool b => Ok (if b then "true" else "false")
  | VNum n => Ok (Number_toString n)
  | VStr s => Ok s
  | VArr elements =>
      join (fun x => match x with
                     | undefined | null => Ok ""
                     | _ => ToString x
                     end) elements
  | VObj members =>
      match lookup "toString" members with
      | Some _ => Throw TypeError
      | None => Ok "[object Object]"
      end
  end.

(** [ToNumber]; arrays and objects go through [ToPrimitive], which for
    values built by [JSON.parse] is their string form, or throws. *)
Definition ToNumber (v : value) : result number :=
  match v with
  | undefined => Ok nan
  | null => Ok 0%float
  | VBool b => Ok (if b then 1%float else 0%float)
  | VNum n => Ok n
  | VStr s => Ok (StringToNumber s)
  | VArr _ | VObj _ => s <- ToString v ;; Ok (StringToNumber s)
  end.

(** [v > n] for a number [n]: false when [v] converts to [NaN]. *)
Definition gt (v : value) (n : number) : result bool :=
  x <- ToNumber v ;; Ok (n <? x)%float.

(** [v / n] for a number [n]. *)
Definition div (v : value) (n : number) : result number :=
  x <- ToNumber v ;; Ok (x / n)%float.


(** The method call [v.toFixed(f)].  Only a number has a callable
    [toFixed]: [undefined] and [null] have no properties, on booleans,
    strings and arrays the property is [undefined], and on an object
    built by [JSON.parse] it is absent or a piece of data; calling any
    of these throws. *)
Definition toFixed (v : value) (f : nat) : result string :=
  match v with
  | VNum n => Ok (Number_toFixed n f)
  | _ => Throw TypeError
  end.

End Js.

Export Js.


(* ================================================================= *)
(** ** [JSON.parse] *)

Module Json.

Local Open Scope char_scope.

(** Outcome of a parsing function: a value and the unread input, a
    syntax error, or exhaustion of the recursion budget. *)
Inductive presult (A : Type) : Type :=
| POk (a : A) (rest : string)
| PError
| PFuel.

Arguments POk {A} a rest.
Arguments PError {A}.
Arguments PFuel {A}.

(** JSON white space: tab, line feed, carriage return and space. *)
Definition is_ws (c : ascii) : bool :=
  (c =? " ") || (c =? "009") || (c =? "010") || (c =? "013").

Fixpoint skip_ws (s : string) : string :=
  match s with
  | String c r => if is_ws c then skip_ws r else s
  | EmptyString => s
  end.

(** The rest of [s] after optional white space and the character [c]. *)
Definition expect (c : ascii) (s : string) : option string :=
  take c (skip_ws s).

(** [int]: a single [0], or a non-zero digit followed by digits. *)
Definition int_part (s : string) : option (Z * string) :=
  match s with
  | String c r =>
      if c =? "0" then Some (0%Z, r)
      else if is_digit c then
        let '(m, _, r') := digits r (digit_val c) 0 in Some (m, r')
      else None
  | EmptyString => None
  end.

(** [frac]: optional; a dot followed by at least one digit. *)
Definition frac_part (m : Z) (s : string) : option (Z * Z * string) :=
  match take "." s with
  | Some r =>
      let '(m', n, r') := digits r m 0 in
      if (n =? 0)%Z then None else Some (m', n, r')
  | None => Some (m, 0%Z, s)
  end.

(** A JSON number: [-? int frac? exp?]. *)
Definition parse_number (s : string) : presult value :=
  let '(neg, s1) :=
    match take "-" s with
    | Some r => (true, r)
    | None => (false, s)
    end in
  match int_part s1 with
  | None => PError
  | Some (m, s2) =>
      match frac_part m s2 with
      | None => PError
      | Some (m', n, s3) =>
          match exp_part s3 with
          | None => PError
          | Some (x, s4) => POk (VNum (dec2float neg m' (x - n))) s4
          end
      end
  end.

(** One element of a decoded string literal: a byte copied from the
    input, or a UTF-16 code unit written as a [\uXXXX] escape. *)
Inductive item : Type :=
| Raw (c : ascii)
| Unit16 (u : N).

Definition hex_val (c : ascii) : option N :=
  let n := N_of_ascii c in
  if ((48 <=? n) && (n <=? 57))%N then Some (n - 48)%N
  else if ((97 <=? n) && (n <=? 102))%N then Some (n - 87)%N
  else if ((65 <=? n) && (n <=? 70))%N then Some (n - 55)%N
  else None.

Definition hex4 (a b c d : ascii) : option N :=
  match hex_val a, hex_val b, hex_val c, hex_val d with
  | Some x, Some y, Some z, Some w => Some (((x * 16 + y) * 16 + z) * 16 + w)%N
  | _, _, _, _ => None
  end.

(** The character a single-letter escape stands for. *)
Definition escape (c : ascii) : option ascii :=
  if c =? "034" then Some "034"
  else if c =? "092" then Some "092"
  else if c =? "/" then Some "/"
  else if c =? "b" then Some "008"
  else if c =? "f" then Some "012"
  else if c =? "n" then Some "010"
  else if c =? "r" then Some "013"
  else if c =? "t" then Some "009"
  else None.

Definition cons_item (i : item) (r : option (list item * string))
  : option (list item * string) :=
  match r with
  | Some (l, rest) => Some (i :: l, rest)
  | None => None
  end.

(** The characters of a string literal after its opening quote, up to
    and including the closing quote.  Control characters must be
    escaped. *)
Fixpoint string_items (s : string) : option (list item * string) :=
  match s with
  | EmptyString => None
  | String c r =>
      if c =? "034" then Some ([], r)
      else if c =? "092" then
        match r with
        | String e r1 =>
            if e =? "u" then
              match r1 with
              | String h1 (String h2 (String h3 (String h4 r2))) =>
                  match hex4 h1 h2 h3 h4 with
                  | Some u => cons_item (Unit16 u) (string_items r2)
                  | None => None
                  end
              | _ => None
              end
            else
              match escape e with
              | Some x => cons_item (Raw x) (string_items r1)
              | None => None
              end
        | EmptyString => None
        end
      else if (nat_of_ascii c <? 32)%nat then None
      else cons_item (Raw c) (string_items r)
  end.

Definition is_high (u : N) : bool := ((55296 <=? u) && (u <=? 56319))%N.
Definition is_low (u : N) : bool := ((56320 <=? u) && (u <=? 57343))%N.

Definition flush (pending : option N) : string :=
  match pending with
  | Some hi => utf8 hi
  | None => EmptyString
  end.

(** The decoded string, as UTF-8; [pending] is a high surrogate waiting
    for its low half. *)
Fixpoint encode (pending : option N) (l : list item) : string :=
  match l with
  | [] => flush pending
  | Raw c :: r => (flush pending ++ String c (encode None r))%string
  | Unit16 u :: r =>
      match pending with
      | Some hi =>
          if is_low u
          then (utf8 (65536 + (hi - 55296) * 1024 + (u - 56320))%N
                ++ encode None r)%string
          else if is_high u then (utf8 hi ++ encode (Some u) r)%string
          else (utf8 hi ++ utf8 u ++ encode None r)%string
      | None =>
          if is_high u then encode (Some u) r
          else (utf8 u ++ encode None r)%string
      end
  end.

Definition parse_string (s : string) : presult string :=
  match string_items s with
  | Some (l, rest) => POk (encode None l) rest
  | None => PError
  end.

(** Expects the remaining letters of [true], [false] or [null]. *)
Definition keyword (word : string) (v : value) (s : string) : presult value :=
  match strip_prefix word s with
  | Some rest => POk v rest
  | None => PError
  end.

Definition pmap {A B : Type} (f : A -> B) (r : presult A) : presult B :=
  match r with
  | POk a rest => POk (f a) rest
  | PError => PError
  | PFuel => PFuel
  end.

(** The grammar of JSON values.  Every call reads at least one
    character before it recurses, so a budget of twice the length of
    the text is never exhausted. *)
Fixpoint parse_value (fuel : nat) (s : string) : presult value :=
  match fuel with
  | O => PFuel
  | S fuel' =>
      match skip_ws s with
      | EmptyString => PError
      | String c r =>
          if c =? "n" then keyword "ull" null r
          else if c =? "t" then keyword "rue" (VBool true) r
          else if c =? "f" then keyword "alse" (VBool false) r
          else if c =? "034" then pmap VStr (parse_string r)
          else if c =? "[" then
            match expect "]" r with
            | Some r' => POk (VArr []) r'
            | None => pmap VArr (parse_elements fuel' r)
            end
          else if c =? "{" then
            match expect "}" r with
            | Some r' => POk (VObj []) r'
            | None => pmap VObj (parse_members fuel' r)
            end
          else parse_number (String c r)
      end
  end

with parse_elements (fuel : nat) (s : string) : presult (list value) :=
  match fuel with
  | O => PFuel
  | S fuel' =>
      match parse_value fuel' s with
      | POk v r =>
          match expect "," r with
          | Some r' => pmap (cons v) (parse_elements fuel' r')
          | None =>
              match expect "]" r with
              | Some r' => POk [v] r'
              | None => PError
              end
          end
      | PError => PError
      | PFuel => PFuel
      end
  end

with parse_members (fuel : nat) (s : string) : presult (list (string * value)) :=
  match fuel with
  | O => PFuel
  | S fuel' =>
      match expect "034" s with
      | Some r =>
          match parse_string r with
          | POk k r1 =>
              match expect ":" r1 with
              | Some r2 =>
                  match parse_value fuel' r2 with
                  | POk v r3 =>
                      match expect "," r3 with
                      | Some r4 => pmap (cons (k, v)) (parse_members fuel' r4)
                      | None =>
                          match expect "}" r3 with
                          | Some r4 => POk [(k, v)] r4
                          | None => PError
                          end
                      end
                  | PError => PError
                  | PFuel => PFuel
                  end
              | None => PError
              end
          | _ => PError
          end
      | None => PError
      end
  end.

(** [JSON.parse(text)]: one value surrounded by optional white space;
    anything else throws a [SyntaxError]. *)
Definition parse (text : string) : result value :=
  match parse_value (2 * String.length text + 1) text with
  | POk v rest =>
      match skip_ws rest with
      | EmptyString => Ok v
      | String _ _ => Throw SyntaxError
      end
  | PError | PFuel => Throw SyntaxError
  end.

(** Writing aid for JSON texts inside this file: every apostrophe
    stands for a double quote. *)
Fixpoint quoted (s : string) : string :=
  match s with
  | EmptyString => EmptyString
  | String c r => String (if c =? "'" then "034" else c) (quoted r)
  end.

End Json.

Definition JSON_parse : string -> result value := Json.parse.

(* ================================================================= *)
(** ** The collaborators of the component *)

(** The kinds of request a socket instance accepts, an enumeration of
    [@/components/server/events].  The component sends only
    [SEND_STATS]; every other member is kept by its wire name. *)
Inductive SocketRequest : Type :=
| SEND_STATS
| OtherRequest (name : string).

(** A websocket instance, known by its identity: two references are
    the same dependency exactly when they are the same object. *)
Definition Instance := nat.

(** One call [instance.send(event, payload)]. *)
Record Sent : Type := {
  via : Instance;
  request : SocketRequest;
  payload : option value
}.

(** [Stats]: the snapshot held by [useState].  The declared type is
    [Record<'memory' | 'cpu' | 'disk' | 'uptime', number>], but the
    event handler stores whatever it read off the decoded payload, so
    a field holds an arbitrary value. *)
Module Stats.
Record t : Type := {
  memory : value;
  cpu : value;
  disk : value;
  uptime : value
}.
End Stats.

(** [state.server.data.limits], with memory and disk in megabytes;
    a limit may be absent. *)
Module Limits.
Record t : Type := {
  cpu : option number;
  memory : option number;
  disk : option number
}.
End Limits.

(** One entry of [state.server.data.allocations]. *)
Module Allocation.
Record t : Type := {
  ip : string;
  port : number;
  alias : option string;
  isDefault : bool
}.
End Allocation.

(** The helpers imported from [@/lib/formatters] and [@/lib/strings]:
    the component is verified for whatever they compute, so they are
    parameters.  [bytesToString] is declared on numbers and is handed
    the snapshot's fields as they are. *)
Class Formatters : Type := {
  bytesToString : value -> string;
  mbToBytes : number -> number;
  ip : string -> string;
  capitalize : string -> string
}.

(** The icons of the blocks. *)
Inductive Icon : Type :=
| faClock | faHdd | faMemory | faMicrochip | faScroll | faWifi.

(** The element tree the component returns.  [StatBlock],
    [UptimeDuration] and [ConsoleShareContainer] are components of
    other files and stay unexpanded, with their props. *)
#[local] Unset Elimination Schemes.
Inductive Node : Type :=
| Text (s : string)
| Fragment (children : list Node)
| Span (className : string) (children : list Node)
| Div (className : string) (children : list Node)
| StatBlock (icon : Icon) (title : string) (description : option string)
            (children : list Node)
| UptimeDuration (uptime : number)
| ConsoleShareContainer.
#[local] Set Elimination Schemes.

(** The entity [&infin;]. *)
Definition infin : string := utf8 8734.

(** [classNames(base, className)]: the truthy arguments, separated by
    a space. *)
Definition classNames (base : string) (className : option string) : string :=
  match className with
  | Some c => if string_truthy c then base ++ " " ++ c else base
  | None => base
  end.

(* ================================================================= *)
(** ** The component *)

(** [limit || <>&infin;</>]: the limit, or the infinity sign when the
    limit is [null] or empty. *)
Definition limit_node (limit : option string) : Node :=
  match limit with
  | Some l => if string_truthy l then Text l else Fragment [Text infin]
  | None => Fragment [Text infin]
  end.

(** [Limit]: the children followed by [/ limit]. *)
Definition Limit (limit : option string) (children : list Node) : Node :=
  Fragment
    (children ++
     [Span "ml-1 text-gray-300 text-[70%] select-none"
        [Text "/ "; limit_node limit]])%list.

(** [const [stats, setStats] = useState(...)]: the initial snapshot. *)
Definition initialStats : Stats.t :=
  {| Stats.memory := VNum 0%float; Stats.cpu := VNum 0%float;
     Stats.disk := VNum 0%float; Stats.uptime := VNum 0%float |}.

(** [limit ? ... : ...] on an optional number. *)
Definition configured (limit : option number) : option number :=
  match limit with
  | Some l => if number_truthy l then Some l else None
  | None => None
  end.

(** The texts of [textLimits]; [None] is [null]. *)
Module TextLimits.
Record t : Type := {
  cpu : option string;
  memory : option string;
  disk : option string
}.
End TextLimits.

Section ServerDetailsBlock.

Context `{Formatters}.

Definition textLimits (limits : Limits.t) : TextLimits.t :=
  {| TextLimits.cpu :=
       match configured (Limits.cpu limits) with
       | Some l => Some (Number_toString l ++ "%")
       | None => None
       end;
     TextLimits.memory :=
       match configured (Limits.memory limits) with
       | Some l => Some (bytesToString (VNum (mbToBytes l)))
       | None => None
       end;
     TextLimits.disk :=
       match configured (Limits.disk limits) with
       | Some l => Some (bytesToString (VNum (mbToBytes l)))
       | None => None
       end |}.

(** [allocations.find((allocation) => allocation.isDefault)]. *)
Definition find_default (allocations : list Allocation.t) : option Allocation.t :=
  List.find Allocation.isDefault allocations.

(** [match.alias || ip(match.ip)]. *)
Definition host (m : Allocation.t) : string :=
  match Allocation.alias m with
  | Some a => if string_truthy a then a else ip (Allocation.ip m)
  | None => ip (Allocation.ip m)
  end.

(** The selector behind [allocation]. *)
Definition allocation (allocations : list Allocation.t) : string :=
  match find_default allocations with
  | None => "n/a"
  | Some m => host m ++ ":" ++ Number_toString (Allocation.port m)
  end.

(** The effect that asks for statistics. *)
Definition requestStats (instance : option Instance) (connected : bool)
  : list Sent :=
  match connected, instance with
  | true, Some i => [{| via := i; request := SEND_STATS; payload := None |}]
  | _, _ => []
  end.

(** The listener for [SocketEvent.STATS].  [Ok None] is the early
    return, [Ok (Some s)] the call [setStats(s)], and [Throw] an
    exception that leaves the listener. *)
Definition onStats (data : string) : result (option Stats.t) :=
  match JSON_parse data with
  | Throw _ => Ok None
  | Ok stats =>
      memory_bytes <- get stats "memory_bytes" ;;
      cpu_absolute <- get stats "cpu_absolute" ;;
      disk_bytes <- get stats "disk_bytes" ;;
      uptime <- get stats "uptime" ;;
      Ok (Some {| Stats.memory := memory_bytes;
                  Stats.cpu := cpu_absolute;
                  Stats.disk := disk_bytes;
                  Stats.uptime := or_else uptime (VNum 0%float) |})
  end.

(** The child of the [Uptime] block. *)
Definition uptimeText (status : string) (stats : Stats.t) : result Node :=
  if (status =? "starting") || (status =? "stopping") then
    Ok (Text (capitalize status))
  else
    running <- gt (Stats.uptime stats) 0%float ;;
    if running then
      seconds <- div (Stats.uptime stats) 1000%float ;;
      Ok (UptimeDuration seconds)
    else Ok (Text "Offline").

(** The [description] of the [CPU Load] block. *)
Definition cpuDescription (limits : Limits.t) : string :=
  match configured (Limits.cpu limits) with
  | Some l =>
      "This server is allowed to use up to " ++ Number_toString l
      ++ "% of the host's available CPU resources."
  | None => "No CPU limit has been configured for this server."
  end.

(** The child of the [CPU Load] block. *)
Definition cpuText (status : string) (limits : Limits.t) (stats : Stats.t)
  : result Node :=
  if status =? "offline" then Ok (Span "text-gray-400" [Text "Offline"])
  else
    current <- toFixed (Stats.cpu stats) 2 ;;
    Ok (Limit (TextLimits.cpu (textLimits limits)) [Text current; Text "%"]).

Definition memoryDescription (limits : Limits.t) : string :=
  match configured (Limits.memory limits) with
  | Some l =>
      "This server is allowed to use up to "
      ++ bytesToString (VNum (mbToBytes l)) ++ " of memory."
  | None => "No memory limit has been configured for this server."
  end.

(** The child of the [Memory] block. *)
Definition memoryText (status : string) (limits : Limits.t) (stats : Stats.t)
  : Node :=
  if status =? "offline" then Span "text-gray-400" [Text "Offline"]
  else Limit (TextLimits.memory (textLimits limits))
             [Text (bytesToString (Stats.memory stats))].

Definition diskDescription (limits : Limits.t) : string :=
  match configured (Limits.disk limits) with
  | Some l =>
      "This server is allowed to use up to "
      ++ bytesToString (VNum (mbToBytes l)) ++ " of disk space."
  | None => "No disk space limit has been configured for this server."
  end.

(** The child of the [Disk] block. *)
Definition diskText (stats : Stats.t) : Node :=
  Text (bytesToString (Stats.disk stats)).

(** What the panel shows: the children and descriptions of its blocks. *)
Record DisplayModel : Type := {
  uptime_text : Node;
  address_text : string;
  cpu_text : Node;
  cpu_description : string;
  memory_text : Node;
  memory_description : string;
  disk_text : Node;
  disk_description : string
}.

(** The expressions of the returned tree, in the order in which they
    are evaluated. *)
Definition display (stats : Stats.t) (limits : Limits.t) (status : string)
  (allocations : list Allocation.t) : result DisplayModel :=
  uptime <- uptimeText status stats ;;
  let address := allocation allocations in
  cpu <- cpuText status limits stats ;;
  Ok {| uptime_text := uptime;
        address_text := address;
        cpu_text := cpu;
        cpu_description := cpuDescription limits;
        memory_text := memoryText status limits stats;
        memory_description := memoryDescription limits;
        disk_text := diskText stats;
        disk_description := diskDescription limits |}.

(** The returned tree. *)
Definition layout_blocks (className : option string) (d : DisplayModel) : Node :=
  Div (classNames "grid grid-cols-6 gap-2 md:gap-4" className)
    [StatBlock faClock "Uptime" None [uptime_text d];
     StatBlock faWifi "Address" None [Text (address_text d)];
     StatBlock faMicrochip "CPU Load" (Some (cpu_description d)) [cpu_text d];
     StatBlock faMemory "Memory" (Some (memory_description d)) [memory_text d];
     StatBlock faHdd "Disk" (Some (disk_description d)) [disk_text d];
     StatBlock faScroll "Save Console Logs"
       (Some "Saves the console logs to a file.") [ConsoleShareContainer]].

(** One evaluation of the function component, given the values of its
    hooks.  [status] is the tag held by the store; a status that is
    none of [starting], [stopping] and [offline] (the store's [null]
    included) takes the same branches as [running]. *)
Definition ServerDetailsBlock (className : option string)
  (stats : Stats.t) (limits : Limits.t) (status : string)
  (allocations : list Allocation.t) : result Node :=
  d <- display stats limits status allocations ;;
  Ok (layout_blocks className d).

End ServerDetailsBlock.

(* ================================================================= *)
(** ** The mounted component as a state machine *)

(** What happens to a mounted component: React commits a render that
    read the given socket values from the store, or the socket
    delivers a [stats] event. *)
Inductive Input : Type :=
| Commit (instance : option Instance) (connected : bool)
| StatsEvent (data : string).

(** The dependency array [[instance, connected]] of a commit. *)
Definition Deps : Type := option Instance * bool.

(** The state of a mounted component: the snapshot, the dependencies
    of the last commit ([None] before the first one), the requests
    sent so far and the exceptions that left the listener. *)
Record Component : Type := {
  stats : Stats.t;
  deps : option Deps;
  outbox : list Sent;
  escaped : list error
}.

Definition mount : Component :=
  {| stats := initialStats; deps := None; outbox := []; escaped := [] |}.

(** [Object.is] on the two dependencies. *)
Definition same_deps (a b : Deps) : bool :=
  match fst a, fst b with
  | Some i, Some j => Nat.eqb i j
  | None, None => true
  | _, _ => false
  end && Bool.eqb (snd a) (snd b).

(** [useEffect]: the effect runs after the first commit and after
    every commit in which a dependency changed. *)
Definition effect_runs (prev : option Deps) (cur : Deps) : bool :=
  match prev with
  | None => true
  | Some d => negb (same_deps d cur)
  end.

Section Machine.

Context `{Formatters}.

(** The requests a commit sends. *)
Definition commit_sends (prev : option Deps) (instance : option Instance)
  (connected : bool) : list Sent :=
  if effect_runs prev (instance, connected)
  then requestStats instance connected
  else [].

Definition step (c : Component) (i : Input) : Component :=
  match i with
  | Commit instance connected =>
      {| stats := stats c;
         deps := Some (instance, connected);
         outbox := (outbox c ++ commit_sends (deps c) instance connected)%list;
         escaped := escaped c |}
  | StatsEvent data =>
      match onStats data with
      | Ok (Some s) =>
          {| stats := s; deps := deps c; outbox := outbox c;
             escaped := escaped c |}
      | Ok None => c
      | Throw e =>
          {| stats := stats c; deps := deps c; outbox := outbox c;
             escaped := (escaped c ++ [e])%list |}
      end
  end.

Definition run_from (c : Component) (inputs : list Input) : Component :=
  fold_left step inputs c.

Definition run (inputs : list Input) : Component := run_from mount inputs.

(** The snapshots that the events of a history have set, oldest first. *)
Fixpoint snapshots (inputs : list Input) : list Stats.t :=
  match inputs with
  | [] => []
  | StatsEvent data :: rest =>
      match onStats data with
      | Ok (Some s) => s :: snapshots rest
      | _ => snapshots rest
      end
  | Commit _ _ :: rest => snapshots rest
  end.

(** What a mounted component shows. *)
Definition shown (c : Component) (limits : Limits.t) (status : string)
  (allocations : list Allocation.t) : result DisplayModel :=
  display (stats c) limits status allocations.

End Machine.

(** Whether the socket was connected at the previous commit; before
    the first commit it was not. *)
Definition connected_before (prev : option Deps) : bool :=
  match prev with
  | Some d => snd d
  | None => false
  end.

(** The number of times a sequence of connectivity values goes from
    disconnected to connected, starting from [before]. *)
Fixpoint rises (before : bool) (connected : list bool) : nat :=
  match connected with
  | [] => 0
  | c :: rest => (if c && negb before then 1 else 0) + rises c rest
  end.

(* ================================================================= *)
(** ** The formatters, as the specification describes them *)

(** Modelled from the spec: the helpers [bytesToString], [mbToBytes]
    and [ip] of [@/lib/formatters] and [capitalize] of [@/lib/strings],
    whose code is in other files.  The specification gives megabytes as
    multiples of 1,048,576 bytes, byte counts in binary-prefix units
    with two decimals ([1.00 MiB]), the raw IP, and the status word
    with its first letter in upper case. *)
Module SpecFormatters.

Definition units : list string := ["Bytes"; "KiB"; "MiB"; "GiB"; "TiB"].

Fixpoint scale (fuel : nat) (x : number) (unit : nat) : number * nat :=
  match fuel with
  | O => (x, unit)
  | S fuel' =>
      if (1024 <=? x)%float then scale fuel' (x / 1024)%float (S unit)
      else (x, unit)
  end.

(** Modelled from the spec: [bytesToString] of [@/lib/formatters], a
    byte count in the largest binary-prefix unit that keeps it at or
    above one, with two decimals. *)
Definition bytesToString (v : value) : string :=
  let bytes :=
    match ToNumber v with
    | Ok x => x
    | Throw _ => nan
    end in
  let '(x, unit) := scale 4 bytes 0 in
  Number_toFixed x 2 ++ " " ++ nth unit units "TiB".

(** Modelled from the spec: [mbToBytes] of [@/lib/formatters], with
    the megabyte of 1,048,576 bytes that [512] megabytes shown as
    [512.00 MiB] requires. *)
Definition mbToBytes (mb : number) : number := (mb * 1048576)%float.

(** Modelled from the spec: [ip] of [@/lib/formatters], the raw IP. *)
Definition ip (address : string) : string := address.

Definition upper (c : ascii) : ascii :=
  let n := nat_of_ascii c in
  if ((97 <=? n) && (n <=? 122))%nat then ascii_of_nat (n - 32) else c.

(** Modelled from the spec: [capitalize] of [@/lib/strings], the word
    with its first letter in upper case. *)
Definition capitalize (s : string) : string :=
  match s with
  | String c rest => String (upper c) rest
  | EmptyString => EmptyString
  end.

(** Modelled from the spec: the four helpers together. *)
Definition formatters : Formatters :=
  Build_Formatters bytesToString mbToBytes ip capitalize.

End SpecFormatters.

(* ================================================================= *)
(** ** Resources and their limit texts *)

(** The three resources the panel reports. *)
Inductive Resource : Type := CPU | Memory | Disk.

Definition limit_of (r : Resource) (limits : Limits.t) : option number :=
  match r with
  | CPU => Limits.cpu limits
  | Memory => Limits.memory limits
  | Disk => Limits.disk limits
  end.

Definition text_of (r : Resource) (t : TextLimits.t) : option string :=
  match r with
  | CPU => TextLimits.cpu t
  | Memory => TextLimits.memory t
  | Disk => TextLimits.disk t
  end.

(** A limit that is zero or absent. *)
Definition unlimited (limit : option number) : Prop :=
  match limit with
  | Some l => (l =? 0)%float = true
  | None => True
  end.

Section Formatted.

Context `{Formatters}.

(** The formatted limit: a percentage for the CPU, the megabytes
    converted to a byte string for memory and disk. *)
Definition formatted (r : Resource) (l : number) : string :=
  match r with
  | CPU => Number_toString l ++ "%"
  | Memory | Disk => bytesToString (VNum (mbToBytes l))
  end.

End Formatted.

(* ================================================================= *)
(** ** Concrete inputs *)

Module Samples.

Import Json.

(** The payload of the specification's end-to-end example, with a
    CPU load that binary64 holds exactly. *)
Definition stats_payload : string :=
  quoted "{'memory_bytes':1048576,'cpu_absolute':12.5,'disk_bytes':2000000000,'uptime':5000}".

(** The payload and the limits of the specification's end-to-end
    example as they are written there. *)
Definition end_to_end_payload : string :=
  quoted "{'memory_bytes':1048576,'cpu_absolute':12.345,'disk_bytes':2000000000,'uptime':5000}".

Definition end_to_end_limits : Limits.t :=
  {| Limits.cpu := Some 50%float; Limits.memory := Some 512%float;
     Limits.disk := Some 1024%float |}.

(** The same payload cut off in the middle of a key. *)
Definition truncated : string := quoted "{'memory_bytes':1048576,'cpu_abs".

(** A later payload, every member of which differs from the first. *)
Definition later_payload : string :=
  quoted "{'memory_bytes':2097152,'cpu_absolute':50.25,'disk_bytes':4000000000,'uptime':7000}".

(** A payload without [uptime]. *)
Definition payload_without_uptime : string :=
  quoted "{'memory_bytes':1048576,'cpu_absolute':12.5,'disk_bytes':2000000000}".

Definition snapshot : Stats.t :=
  {| Stats.memory := VNum 1048576%float; Stats.cpu := VNum 12.5%float;
     Stats.disk := VNum 2000000000%float; Stats.uptime := VNum 5000%float |}.

Definition limits : Limits.t :=
  {| Limits.cpu := Some 50%float; Limits.memory := Some 0%float;
     Limits.disk := None |}.

Definition secondary : Allocation.t :=
  {| Allocation.ip := "10.0.0.1"; Allocation.port := 25565%float;
     Allocation.alias := None; Allocation.isDefault := false |}.

Definition primary : Allocation.t :=
  {| Allocation.ip := "10.0.0.2"; Allocation.port := 25566%float;
     Allocation.alias := Some "play"; Allocation.isDefault := true |}.

Definition also_default : Allocation.t :=
  {| Allocation.ip := "10.0.0.3"; Allocation.port := 25567%float;
     Allocation.alias := None; Allocation.isDefault := true |}.

End Samples.

(* ================================================================= *)
(** ** Vocabulary for the blocks, the descriptions and the histories *)

(** The sentence a block's description opens with when a limit is
    configured. *)
Definition allowance_prefix : string := "This server is allowed to use up to ".

(** How that sentence ends for each resource. *)
Definition allowance_suffix (r : Resource) : string :=
  match r with
  | CPU => " of the host's available CPU resources."
  | Memory => " of memory."
  | Disk => " of disk space."
  end.

(** The description of a resource without a configured limit. *)
Definition unlimited_sentence (r : Resource) : string :=
  match r with
  | CPU => "No CPU limit has been configured for this server."
  | Memory => "No memory limit has been configured for this server."
  | Disk => "No disk space limit has been configured for this server."
  end.

Section Descriptions.

Context `{Formatters}.

(** The [description] prop of the block of a resource. *)
Definition description_of (r : Resource) (limits : Limits.t) : string :=
  match r with
  | CPU => cpuDescription limits
  | Memory => memoryDescription limits
  | Disk => diskDescription limits
  end.

End Descriptions.

(** The [title] prop of a block. *)
Definition block_title (n : Node) : option string :=
  match n with
  | StatBlock _ title _ _ => Some title
  | _ => None
  end.

(** The [icon] prop of a block. *)
Definition block_icon (n : Node) : option Icon :=
  match n with
  | StatBlock icon _ _ _ => Some icon
  | _ => None
  end.

Definition is_commit (i : Input) : bool :=
  match i with
  | Commit _ _ => true
  | StatsEvent _ => false
  end.

(** The request the effect sends through an instance. *)
Definition stats_request (i : Instance) : Sent :=
  {| via := i; request := SEND_STATS; payload := None |}.

(** The value of the member expression [v.key] when it does not
    throw. *)
Definition member (v : value) (key : string) : value :=
  match get v key with
  | Ok x => x
  | Throw _ => undefined
  end.

(** The argument the listener hands to [setStats] for a decoded
    payload. *)
Definition snapshot_of (decoded : value) : Stats.t :=
  {| Stats.memory := member decoded "memory_bytes";
     Stats.cpu := member decoded "cpu_absolute";
     Stats.disk := member decoded "disk_bytes";
     Stats.uptime := or_else (member decoded "uptime") (VNum 0%float) |}.


(** The limit a block's child shows after its slash, if it shows one:
    the second child of the trailing [span] of a [Limit]. *)
Definition rendered_limit (child : Node) : option Node :=
  match child with
  | Fragment children =>
      match last children (Text "") with
      | Span _ [Text slash; limit] =>
          if slash =? "/ " then Some limit else None
      | _ => None
      end
  | _ => None
  end.

(** The child of the block of a resource. *)
Definition block_child (r : Resource) (d : DisplayModel) : Node :=
  match r with
  | CPU => cpu_text d
  | Memory => memory_text d
  | Disk => disk_text d
  end.

(** The dependencies of the commits of a history, in order. *)
Fixpoint commits (inputs : list Input) : list Deps :=
  match inputs with
  | [] => []
  | Commit instance connected :: rest => (instance, connected) :: commits rest
  | StatsEvent _ :: rest => commits rest
  end.

(** The socket is connected and its instance is there. *)
Definition ready (d : Deps) : bool :=
  snd d && match fst d with Some _ => true | None => false end.

Definition ready_before (prev : option Deps) : bool :=
  match prev with
  | Some d => ready d
  | None => false
  end.

(** The number of commits at which the socket has become ready. *)
Fixpoint ready_rises (prev : option Deps) (ds : list Deps) : nat :=
  match ds with
  | [] => 0
  | d :: rest =>
      (if ready d && negb (ready_before prev) then 1 else 0)
      + ready_rises (Some d) rest
  end.

(** The socket stays ready from [d] to [d'] with another instance. *)
Definition replaced (d d' : Deps) : bool :=
  ready d && ready d'
  && match fst d, fst d' with
     | Some i, Some j => negb (Nat.eqb i j)
     | _, _ => false
     end.

(** The number of commits at which the instance of a ready socket has
    been exchanged for another. *)
Fixpoint replacements (prev : option Deps) (ds : list Deps) : nat :=
  match ds with
  | [] => 0
  | d :: rest =>
      (match prev with
       | Some d0 => if replaced d0 d then 1 else 0
       | None => 0
       end)
      + replacements (Some d) rest
  end.

(** The uptime a snapshot may hold after the listener's [|| 0]. *)
Definition defaulted (v : value) : Prop :=
  v = VNum 0%float \/ truthy v = true.

(** Further concrete inputs. *)
Module MoreSamples.

(** Limits with a negative CPU share and a [NaN] memory limit. *)
Definition odd_limits : Limits.t :=
  {| Limits.cpu := Some (-5)%float; Limits.memory := Some nan;
     Limits.disk := Some 1024%float |}.

(** The snapshot left by the payload [{}]. *)
Definition blank : Stats.t :=
  {| Stats.memory := undefined; Stats.cpu := undefined;
     Stats.disk := undefined; Stats.uptime := VNum 0%float |}.

(** A snapshot whose uptime is an object with an own [toString]
    member, as the payload [{"cpu_absolute":1,"uptime":{"toString":1}}]
    leaves it. *)
Definition unreadable_uptime : Stats.t :=
  {| Stats.memory := undefined; Stats.cpu := VNum 1%float;
     Stats.disk := undefined;
     Stats.uptime := VObj [("toString", VNum 1%float)] |}.

(** The payload that leaves it. *)
Definition unreadable_payload : string :=
  Json.quoted "{'cpu_absolute':1,'uptime':{'toString':1}}".

End MoreSamples.

(* ================================================================= *)
(** ** The recursion budget of [JSON.parse] *)

Module JsonBudget.

Import Json.

Lemma take_length (c : ascii) (s r : string) :
  take c s = Some r -> String.length s = S (String.length r).
Proof.
  destruct s as [| d s']; cbn; [discriminate |].
  destruct (d =? c)%char; [| discriminate]. now intros [= ->].
Qed.

Lemma skip_ws_length (s : string) : String.length (skip_ws s) <= String.length s.
Proof.
  induction s as [| c s IH]; cbn; [lia |].
  destruct (is_ws c); cbn; lia.
Qed.

Lemma expect_length (c : ascii) (s r : string) :
  expect c s = Some r -> String.length r < String.length s.
Proof.
  unfold expect. intros Ht. apply take_length in Ht.
  pose proof (skip_ws_length s). lia.
Qed.

Lemma strip_prefix_length (p s r : string) :
  strip_prefix p s = Some r -> String.length r <= String.length s.
Proof.
  revert s. induction p as [| a p IH]; intros s; cbn.
  - now intros [= ->].
  - destruct s as [| b s]; [discriminate |].
    destruct (a =? b)%char; [| discriminate].
    intros Hp. apply IH in Hp. cbn. lia.
Qed.

Lemma digits_length (s : string) (acc count m k : Z) (r : string) :
  digits s acc count = (m, k, r) -> String.length r <= String.length s.
Proof.
  revert acc count. induction s as [| c s IH]; intros acc count; cbn.
  - now intros [= _ _ <-].
  - destruct (is_digit c).
    + intros Hd. apply IH in Hd. lia.
    + intros [= _ _ <-]. cbn. lia.
Qed.

Lemma exp_digits_length (s : string) (x : Z) (r : string) :
  exp_digits s = Some (x, r) -> String.length r <= String.length s.
Proof.
  unfold exp_digits. destruct (digits s 0 0) as [[m k] r'] eqn:Hd.
  destruct (k =? 0)%Z; [discriminate |]. intros [= _ <-].
  now apply digits_length in Hd.
Qed.

Lemma exp_part_length (s : string) (x : Z) (r : string) :
  exp_part s = Some (x, r) -> String.length r <= String.length s.
Proof.
  destruct s as [| c s]; cbn; [now intros [= _ <-] |].
  destruct ((c =? "e")%char || (c =? "E")%char);
    [| intros [= _ <-]; cbn; lia].
  destruct (take "+" s) as [r1 |] eqn:Hplus.
  - intros Hx. apply exp_digits_length in Hx. apply take_length in Hplus. lia.
  - destruct (take "-" s) as [r1 |] eqn:Hminus.
    + destruct (exp_digits r1) as [[y r2] |] eqn:Hx; [| discriminate].
      intros [= _ <-]. apply exp_digits_length in Hx.
      apply take_length in Hminus. lia.
    + intros Hx. apply exp_digits_length in Hx. lia.
Qed.

Lemma int_part_length (s : string) (m : Z) (r : string) :
  int_part s = Some (m, r) -> String.length r < String.length s.
Proof.
  destruct s as [| c s]; cbn; [discriminate |].
  destruct (c =? "0")%char; [intros [= _ <-]; lia |].
  destruct (is_digit c); [| discriminate].
  destruct (digits s (digit_val c) 0) as [[m' k] r'] eqn:Hd.
  intros [= _ <-]. apply digits_length in Hd. lia.
Qed.

Lemma frac_part_length (m : Z) (s : string) (m' n : Z) (r : string) :
  frac_part m s = Some (m', n, r) -> String.length r <= String.length s.
Proof.
  unfold frac_part. destruct (take "." s) as [r1 |] eqn:Hdot.
  - destruct (digits r1 m 0) as [[m1 k] r2] eqn:Hd.
    destruct (k =? 0)%Z; [discriminate |]. intros [= _ _ <-].
    apply digits_length in Hd. apply take_length in Hdot. lia.
  - now intros [= _ _ <-].
Qed.

Lemma parse_number_length (s : string) (v : value) (r : string) :
  parse_number s = POk v r -> String.length r < String.length s.
Proof.
  unfold parse_number.
  destruct (take "-" s) as [s1 |] eqn:Hminus.
  - destruct (int_part s1) as [[m s2] |] eqn:Hi; [| discriminate].
    destruct (frac_part m s2) as [[[m' n] s3] |] eqn:Hf; [| discriminate].
    destruct (exp_part s3) as [[x s4] |] eqn:He; [| discriminate].
    intros [= _ <-]. apply take_length in Hminus. apply int_part_length in Hi.
    apply frac_part_length in Hf. apply exp_part_length in He. lia.
  - destruct (int_part s) as [[m s2] |] eqn:Hi; [| discriminate].
    destruct (frac_part m s2) as [[[m' n] s3] |] eqn:Hf; [| discriminate].
    destruct (exp_part s3) as [[x s4] |] eqn:He; [| discriminate].
    intros [= _ <-]. apply int_part_length in Hi.
    apply frac_part_length in Hf. apply exp_part_length in He. lia.
Qed.

Lemma parse_number_budget (s : string) : parse_number s <> PFuel.
Proof.
  unfold parse_number.
  destruct (take "-" s) as [s1 |];
    [destruct (int_part s1) as [[m s2] |]
    | destruct (int_part s) as [[m s2] |]];
    try discriminate;
    (destruct (frac_part m s2) as [[[m' n] s3] |]; [| discriminate]);
    destruct (exp_part s3) as [[x s4] |]; discriminate.
Qed.

Lemma cons_item_length (i : item) (o : option (list item * string))
  (l : list item) (r : string) (bound : nat) :
  (forall l' r', o = Some (l', r') -> String.length r' < bound) ->
  cons_item i o = Some (l, r) -> String.length r < bound.
Proof.
  destruct o as [[l' r'] |]; cbn; [| discriminate].
  intros Hb [= _ <-]. now apply (Hb l').
Qed.

Lemma string_items_length (n : nat) (s : string) (l : list item) (r : string) :
  String.length s <= n -> string_items s = Some (l, r) -> String.length r < String.length s.
Proof.
  revert s l r. induction n as [| n IH]; intros s l r Hn.
  - destruct s; [discriminate | cbn in Hn; lia].
  - destruct s as [| c s]; [discriminate |]. cbn [string_items].
    cbn in Hn.
    destruct (c =? "034")%char; [intros [= _ <-]; cbn; lia |].
    destruct (c =? "092")%char.
    + destruct s as [| e s1]; [discriminate |].
      destruct (e =? "u")%char.
      * destruct s1 as [| h1 [| h2 [| h3 [| h4 s2]]]]; try discriminate.
        destruct (hex4 h1 h2 h3 h4); [| discriminate].
        intros Hc. cbn [String.length].
        enough (String.length r < String.length s2) by lia.
        apply (cons_item_length _ _ _ _ _ (fun l' r' Hs =>
          IH s2 l' r' ltac:(cbn in Hn; lia) Hs)) in Hc. exact Hc.
      * destruct (escape e); [| discriminate].
        intros Hc. cbn [String.length].
        enough (String.length r < String.length s1) by lia.
        apply (cons_item_length _ _ _ _ _ (fun l' r' Hs =>
          IH s1 l' r' ltac:(cbn in Hn; lia) Hs)) in Hc. exact Hc.
    + destruct (nat_of_ascii c <? 32)%nat; [discriminate |].
      intros Hc. cbn [String.length].
      enough (String.length r < String.length s) by lia.
      apply (cons_item_length _ _ _ _ _ (fun l' r' Hs =>
        IH s l' r' ltac:(lia) Hs)) in Hc. exact Hc.
Qed.

Lemma parse_string_length (s k r : string) :
  parse_string s = POk k r -> String.length r < String.length s.
Proof.
  unfold parse_string.
  destruct (string_items s) as [[l r'] |] eqn:Hs; [| discriminate].
  intros [= _ <-]. now apply (string_items_length (String.length s)) in Hs.
Qed.

Lemma parse_string_budget (s : string) : parse_string s <> PFuel.
Proof.
  unfold parse_string. now destruct (string_items s) as [[l r] |].
Qed.

Lemma keyword_length (word : string) (v v' : value) (s r : string) :
  keyword word v s = POk v' r -> String.length r <= String.length s.
Proof.
  unfold keyword. destruct (strip_prefix word s) eqn:Hp; [| discriminate].
  intros [= _ <-]. now apply strip_prefix_length in Hp.
Qed.

Lemma keyword_budget (word : string) (v : value) (s : string) :
  keyword word v s <> PFuel.
Proof. unfold keyword. now destruct (strip_prefix word s). Qed.

Lemma pmap_ok {A B : Type} (f : A -> B) (x : presult A) (b : B) (r : string) :
  pmap f x = POk b r -> exists a, x = POk a r.
Proof. destruct x; cbn; [intros [= _ <-]; eauto | discriminate | discriminate]. Qed.

Lemma pmap_budget {A B : Type} (f : A -> B) (x : presult A) :
  x <> PFuel -> pmap f x <> PFuel.
Proof. now destruct x. Qed.

(** Every successful parse reads at least one character. *)
Lemma parse_length (fuel : nat) :
  (forall s v r, parse_value fuel s = POk v r -> String.length r < String.length s)
  /\ (forall s l r, parse_elements fuel s = POk l r -> String.length r < String.length s)
  /\ (forall s l r, parse_members fuel s = POk l r -> String.length r < String.length s).
Proof.
  induction fuel as [| fuel (IHv & IHe & IHm)];
    [repeat split; discriminate |].
  split; [| split].
  - intros s v r. cbn [parse_value].
    pose proof (skip_ws_length s) as Hws.
    destruct (skip_ws s) as [| c t]; [discriminate |]. cbn [String.length] in Hws.
    destruct (c =? "n")%char;
      [intros Hk; apply keyword_length in Hk; lia |].
    destruct (c =? "t")%char;
      [intros Hk; apply keyword_length in Hk; lia |].
    destruct (c =? "f")%char;
      [intros Hk; apply keyword_length in Hk; lia |].
    destruct (c =? "034")%char.
    { intros Hp. apply pmap_ok in Hp as [k Hp].
      apply parse_string_length in Hp. lia. }
    destruct (c =? "[")%char.
    { destruct (expect "]" t) as [r' |] eqn:Hx.
      - intros [= _ <-]. apply expect_length in Hx. lia.
      - intros Hp. apply pmap_ok in Hp as [l Hp]. apply IHe in Hp. lia. }
    destruct (c =? "{")%char.
    { destruct (expect "}" t) as [r' |] eqn:Hx.
      - intros [= _ <-]. apply expect_length in Hx. lia.
      - intros Hp. apply pmap_ok in Hp as [l Hp]. apply IHm in Hp. lia. }
    intros Hn. apply parse_number_length in Hn. cbn [String.length] in Hn. lia.
  - intros s l r. cbn [parse_elements].
    destruct (parse_value fuel s) as [v r1 | |] eqn:Hv; try discriminate.
    apply IHv in Hv.
    destruct (expect "," r1) as [r2 |] eqn:Hc.
    + intros Hp. apply pmap_ok in Hp as [l' Hp]. apply IHe in Hp.
      apply expect_length in Hc. lia.
    + destruct (expect "]" r1) as [r2 |] eqn:Hb; [| discriminate].
      intros [= _ <-]. apply expect_length in Hb. lia.
  - intros s l r. cbn [parse_members].
    destruct (expect "034" s) as [r0 |] eqn:Hq; [| discriminate].
    apply expect_length in Hq.
    destruct (parse_string r0) as [k r1 | |] eqn:Hk; try discriminate.
    apply parse_string_length in Hk.
    destruct (expect ":" r1) as [r2 |] eqn:Hcolon; [| discriminate].
    apply expect_length in Hcolon.
    destruct (parse_value fuel r2) as [v r3 | |] eqn:Hv; try discriminate.
    apply IHv in Hv.
    destruct (expect "," r3) as [r4 |] eqn:Hc.
    + intros Hp. apply pmap_ok in Hp as [l' Hp]. apply IHm in Hp.
      apply expect_length in Hc. lia.
    + destruct (expect "}" r3) as [r4 |] eqn:Hb; [| discriminate].
      intros [= _ <-]. apply expect_length in Hb. lia.
Qed.

(** With a budget above twice the length of the input no parsing
    function runs out of it. *)
Lemma parse_budget (fuel : nat) :
  (forall s, 2 * String.length s + 1 <= fuel -> parse_value fuel s <> PFuel)
  /\ (forall s, 2 * String.length s + 2 <= fuel -> parse_elements fuel s <> PFuel)
  /\ (forall s, 2 * String.length s + 2 <= fuel -> parse_members fuel s <> PFuel).
Proof.
  induction fuel as [| fuel (IHv & IHe & IHm)];
    [repeat split; intros s Hs; lia |].
  destruct (parse_length fuel) as (Lv & Le & Lm).
  split; [| split].
  - intros s Hs. cbn [parse_value].
    pose proof (skip_ws_length s) as Hws.
    destruct (skip_ws s) as [| c t]; [discriminate |]. cbn [String.length] in Hws.
    destruct (c =? "n")%char; [apply keyword_budget |].
    destruct (c =? "t")%char; [apply keyword_budget |].
    destruct (c =? "f")%char; [apply keyword_budget |].
    destruct (c =? "034")%char;
      [apply pmap_budget, parse_string_budget |].
    destruct (c =? "[")%char.
    { destruct (expect "]" t); [discriminate |].
      apply pmap_budget, IHe. lia. }
    destruct (c =? "{")%char.
    { destruct (expect "}" t); [discriminate |].
      apply pmap_budget, IHm. lia. }
    apply parse_number_budget.
  - intros s Hs. cbn [parse_elements].
    destruct (parse_value fuel s) as [v r1 | |] eqn:Hv; [| discriminate |].
    + apply Lv in Hv.
      destruct (expect "," r1) as [r2 |] eqn:Hc.
      * apply expect_length in Hc. apply pmap_budget, IHe. lia.
      * destruct (expect "]" r1); discriminate.
    + exfalso. apply (IHv s); [lia | exact Hv].
  - intros s Hs. cbn [parse_members].
    destruct (expect "034" s) as [r0 |] eqn:Hq; [| discriminate].
    apply expect_length in Hq.
    destruct (parse_string r0) as [k r1 | |] eqn:Hk; try discriminate.
    apply parse_string_length in Hk.
    destruct (expect ":" r1) as [r2 |] eqn:Hcolon; [| discriminate].
    apply expect_length in Hcolon.
    destruct (parse_value fuel r2) as [v r3 | |] eqn:Hv; [| discriminate |].
    + apply Lv in Hv.
      destruct (expect "," r3) as [r4 |] eqn:Hc.
      * apply expect_length in Hc. apply pmap_budget, IHm. lia.
      * destruct (expect "}" r3); discriminate.
    + exfalso. apply (IHv r2); [lia | exact Hv].
Qed.

(** [JSON.parse] always answers from the grammar: the budget it gives
    the parser is enough for every text. *)
Theorem parse_never_exhausts_budget (text : string) :
  parse_value (2 * String.length text + 1) text <> PFuel.
Proof. apply parse_budget. lia. Qed.

End JsonBudget.

(** [JSON.parse] never answers [undefined]. *)
Lemma parse_value_defined (fuel : nat) (s : string) (v : value) (r : string) :
  Json.parse_value fuel s = Json.POk v r -> v <> undefined.
Proof.
  destruct fuel as [| fuel]; [discriminate |]. cbn [Json.parse_value].
  destruct (Json.skip_ws s) as [| c t]; [discriminate |].
  unfold Json.keyword, Json.parse_string, Json.parse_number, Json.pmap.
  repeat match goal with
  | |- context [if ?b then _ else _] => destruct b
  | |- context [match ?x with _ => _ end] => destruct x
  end; intros E; try discriminate E; injection E as <- _; discriminate.
Qed.

Lemma JSON_parse_defined (text : string) (v : value) :
  JSON_parse text = Ok v -> v <> undefined.
Proof.
  unfold JSON_parse, Json.parse.
  destruct (Json.parse_value _ text) as [v' rest | |] eqn:Hp;
    try discriminate.
  destruct (Json.skip_ws rest); [| discriminate].
  intros [= <-]. exact (parse_value_defined _ _ _ _ Hp).
Qed.

(* ================================================================= *)
(** ** Conversions that throw *)

Section ValueInduction.

Variable P : value -> Prop.

Hypothesis Pundefined : P undefined.
Hypothesis Pnull : P null.
Hypothesis Pbool : forall b, P (VBool b).
Hypothesis Pnum : forall n, P (VNum n).
Hypothesis Pstr : forall s, P (VStr s).
Hypothesis Parr : forall elements, Forall P elements -> P (VArr elements).
Hypothesis Pobj : forall members, P (VObj members).


End ValueInduction.





(* ================================================================= *)
(** ** Auxiliary facts *)

Section Facts.

Context `{Formatters}.

(** *** Numbers and strings *)

Lemma positive_truthy (x : number) :
  (0 <? x)%float = true -> number_truthy x = true.
Proof.
  unfold number_truthy, is_nan. rewrite ltb_spec, !eqb_spec.
  change (Prim2SF 0) with (S754_zero false).
  destruct (Prim2SF x) as [s | s | | s m e]; cbn; try discriminate.
  - destruct s; cbn; [discriminate | reflexivity].
  - destruct s; cbn; [discriminate |].
    now rewrite Z.compare_refl, Pos.compare_refl.
Qed.

Lemma zero_falsy (x : number) :
  (x =? 0)%float = true -> number_truthy x = false.
Proof. unfold number_truthy. now intros ->. Qed.

Lemma configured_unlimited (limit : option number) :
  unlimited limit -> configured limit = None.
Proof.
  destruct limit as [l |]; cbn; [| reflexivity].
  intros Hz. now rewrite (zero_falsy _ Hz).
Qed.

Lemma configured_positive (l : number) :
  (0 <? l)%float = true -> configured (Some l) = Some l.
Proof. intros Hp. cbn. now rewrite (positive_truthy _ Hp). Qed.

Lemma append_truthy (a : string) (c : ascii) (b : string) :
  string_truthy (a ++ String c b) = true.
Proof. now destruct a. Qed.

Lemma string_truthy_nonempty (s : string) :
  s <> "" -> string_truthy s = true.
Proof. destruct s; [congruence | reflexivity]. Qed.

Lemma colon_not_placeholder (a b : string) : a ++ ":" ++ b <> "n/a".
Proof.
  destruct a as [| c1 [| c2 [| c3 [| c4 a]]]]; cbn; intros E;
    injection E; intros; subst; discriminate.
Qed.

(** *** The selection of the default allocation *)

Lemma find_default_none (allocations : list Allocation.t) :
  (forall a, In a allocations -> Allocation.isDefault a = false) ->
  find_default allocations = None.
Proof.
  induction allocations as [| a rest IH]; cbn; intros Hall; [reflexivity |].
  rewrite (Hall a (or_introl eq_refl)). apply IH.
  intros b Hb. apply Hall. now right.
Qed.

Lemma find_default_first (before : list Allocation.t) (m : Allocation.t)
  (after : list Allocation.t) :
  (forall a, In a before -> Allocation.isDefault a = false) ->
  Allocation.isDefault m = true ->
  find_default (before ++ m :: after)%list = Some m.
Proof.
  induction before as [| a rest IH]; cbn; intros Hall Hm.
  - now rewrite Hm.
  - rewrite (Hall a (or_introl eq_refl)). apply IH; [| exact Hm].
    intros b Hb. apply Hall. now right.
Qed.

(** *** The history of a component *)

Lemma last_cons {A : Type} (l : list A) (a d : A) :
  last (a :: l) d = last l a.
Proof.
  revert a d. induction l as [| b l IH]; intros a d; [reflexivity |].
  change (last (a :: b :: l) d) with (last (b :: l) d).
  now rewrite !IH.
Qed.

Lemma stats_run_from (inputs : list Input) (c : Component) :
  stats (run_from c inputs) = last (snapshots inputs) (stats c).
Proof.
  unfold run_from. revert c.
  induction inputs as [| i rest IH]; intros c; [reflexivity |].
  cbn [fold_left]. rewrite IH. destruct i as [instance connected | data].
  - reflexivity.
  - cbn [step snapshots].
    destruct (onStats data) as [[s |] | e]; cbn [stats]; try reflexivity.
    now rewrite last_cons.
Qed.

Lemma stats_run (inputs : list Input) :
  stats (run inputs) = last (snapshots inputs) initialStats.
Proof. apply stats_run_from. Qed.

Lemma outbox_step_commit (c : Component) (instance : option Instance)
  (connected : bool) :
  outbox (step c (Commit instance connected)) =
  (outbox c ++ commit_sends (deps c) instance connected)%list.
Proof. reflexivity. Qed.

(** Under one established instance, the requests sent over a run of
    commits are as many as the times [connected] rose. *)
Lemma sends_count_rises (i : Instance) (connected : list bool) (c : Component) :
  (deps c = None \/ exists b, deps c = Some (Some i, b)) ->
  List.length (outbox (run_from c (map (Commit (Some i)) connected))) =
  List.length (outbox c) + rises (connected_before (deps c)) connected.
Proof.
  unfold run_from. revert c.
  induction connected as [| b rest IH]; intros c Hd; cbn [map fold_left rises].
  - lia.
  - rewrite IH by (right; eexists; reflexivity).
    cbn [step outbox deps connected_before snd]. rewrite List.length_app.
    unfold commit_sends, effect_runs, same_deps.
    destruct Hd as [-> | [b0 ->]]; cbn [fst snd connected_before].
    + destruct b; cbn; lia.
    + rewrite Nat.eqb_refl. destruct b, b0; cbn; lia.
Qed.

Lemma sends_are_stats_requests (inputs : list Input) (c : Component) :
  Forall (fun m => request m = SEND_STATS /\ payload m = None) (outbox c) ->
  Forall (fun m => request m = SEND_STATS /\ payload m = None)
         (outbox (run_from c inputs)).
Proof.
  unfold run_from. revert c.
  induction inputs as [| i rest IH]; intros c Hc; [exact Hc |].
  cbn [fold_left]. apply IH. destruct i as [instance connected | data].
  - cbn [step outbox]. apply Forall_app. split; [exact Hc |].
    unfold commit_sends, requestStats.
    destruct (effect_runs _ _), connected, instance; auto.
  - cbn [step]. destruct (onStats data) as [[s |] | e]; exact Hc.
Qed.

(** *** What [Limit] and the display hold *)

Lemma rendered_limit_Limit (limit : option string) (children : list Node) :
  rendered_limit (Limit limit children) = Some (limit_node limit).
Proof. unfold Limit, rendered_limit. now rewrite last_last. Qed.

Lemma display_ok_inv (stats : Stats.t) (limits : Limits.t) (status : string)
  (allocations : list Allocation.t) (d : DisplayModel) :
  display stats limits status allocations = Ok d ->
  exists uptime cpu,
    uptimeText status stats = Ok uptime
    /\ cpuText status limits stats = Ok cpu
    /\ d = {| uptime_text := uptime;
              address_text := allocation allocations;
              cpu_text := cpu;
              cpu_description := cpuDescription limits;
              memory_text := memoryText status limits stats;
              memory_description := memoryDescription limits;
              disk_text := diskText stats;
              disk_description := diskDescription limits |}.
Proof.
  unfold display.
  destruct (uptimeText status stats) as [uptime | e]; cbn [bind];
    [| discriminate].
  destruct (cpuText status limits stats) as [cpu | e]; cbn [bind];
    [| discriminate].
  intros [= <-]. eauto.
Qed.

Lemma cpuText_online_inv (status : string) (limits : Limits.t)
  (stats : Stats.t) (cpu : Node) :
  status <> "offline" ->
  cpuText status limits stats = Ok cpu ->
  exists c,
    Stats.cpu stats = VNum c
    /\ cpu = Limit (TextLimits.cpu (textLimits limits))
                   [Text (Number_toFixed c 2); Text "%"].
Proof.
  intros Hs. apply String.eqb_neq in Hs. unfold cpuText, toFixed. rewrite Hs.
  destruct (Stats.cpu stats) as [| | b | c | t | l | m]; cbn [bind];
    try discriminate.
  intros [= <-]. eauto.
Qed.

(** *** Counting requests *)

Lemma commit_sends_length (prev : option Deps) (instance : option Instance)
  (connected : bool) :
  List.length (commit_sends prev instance connected) =
  (if ready (instance, connected) && negb (ready_before prev) then 1 else 0)
  + match prev with
    | Some d => if replaced d (instance, connected) then 1 else 0
    | None => 0
    end.
Proof.
  unfold commit_sends, effect_runs, same_deps, requestStats, replaced, ready,
    ready_before.
  destruct prev as [[[i0 |] c0] |], instance as [i |], connected;
    cbn [fst snd]; try destruct c0; try destruct (Nat.eqb i0 i);
    reflexivity.
Qed.

Lemma sends_count (inputs : list Input) (c : Component) :
  List.length (outbox (run_from c inputs)) =
  List.length (outbox c)
  + ready_rises (deps c) (commits inputs)
  + replacements (deps c) (commits inputs).
Proof.
  unfold run_from. revert c.
  induction inputs as [| i rest IH]; intros c; cbn [fold_left commits].
  - cbn. lia.
  - rewrite IH. destruct i as [instance connected | data].
    + cbn [step outbox deps commits ready_rises replacements].
      rewrite List.length_app, commit_sends_length.
      destruct (deps c) as [d0 |];
        repeat match goal with
        | |- context [if ?b then _ else _] => destruct b
        end; unfold Deps in *; lia.
    + cbn [commits step].
      destruct (onStats data) as [[s |] | e]; cbn [outbox deps]; lia.
Qed.

Lemma replacements_one_instance (i : Instance) (ds : list Deps)
  (prev : option Deps) :
  (forall d, prev = Some d -> fst d = None \/ fst d = Some i) ->
  (forall d, In d ds -> fst d = None \/ fst d = Some i) ->
  replacements prev ds = 0.
Proof.
  revert prev. induction ds as [| d rest IH]; intros prev Hp Hds;
    [reflexivity |].
  cbn [replacements]. rewrite IH.
  - destruct prev as [[i0 c0] |]; [| reflexivity].
    destruct d as [j cj]. unfold replaced, ready. cbn [fst snd].
    destruct (Hp _ eq_refl) as [Hi | Hi],
      (Hds _ (or_introl eq_refl)) as [Hj | Hj];
      cbn in Hi, Hj; subst;
      rewrite ?Nat.eqb_refl, ?andb_false_r; reflexivity.
  - intros d' [= <-]. apply Hds. now left.
  - intros d' Hin. apply Hds. now right.
Qed.

(** *** The evaluation of the uptime *)









End Facts.

(* ================================================================= *)
(** ** The panel's display model *)

Section Panel.

Context `{Formatters}.

(** C1.  Whatever the snapshot holds, the uptime block shows the
    capitalized status word while the status is [starting] or
    [stopping]; under any other status it shows the duration of the
    snapshot's uptime converted from milliseconds to seconds when that
    uptime is greater than zero, and the literal [Offline] when it is
    not. *)
Theorem uptime_text_by_status (status : string) (stats : Stats.t) :
  (status = "starting" \/ status = "stopping" ->
   uptimeText status stats = Ok (Text (capitalize status)))
  /\ (forall u,
        status <> "starting" -> status <> "stopping" ->
        Stats.uptime stats = VNum u ->
        ((0 <? u)%float = true ->
         uptimeText status stats = Ok (UptimeDuration (u / 1000)%float))
        /\ ((0 <? u)%float = false ->
            uptimeText status stats = Ok (Text "Offline"))).
Proof.
  unfold uptimeText, gt, div. split.
  - intros [-> | ->]; reflexivity.
  - intros u H1 H2 Hu. apply String.eqb_neq in H1, H2.
    rewrite H1, H2, Hu. cbn [ToNumber orb bind].
    split; intros ->; reflexivity.
Qed.


(** C6.  In the rendered panel only the CPU and memory blocks show a
    limit text, and only while the status is not [offline].  There, a
    limit that is zero or absent shows as the infinity sign and never
    as the string [0], and a positive limit shows formatted (a
    percentage for the CPU, the megabytes converted to a byte string for
    memory).  The disk block never shows a limit text: its limit
    appears in its description only, as the sentence that no limit is
    configured when it is zero or absent and as the formatted limit
    when it is positive. *)
Theorem rendered_limit_by_resource (stats : Stats.t) (limits : Limits.t)
  (status : string) (allocations : list Allocation.t) (d : DisplayModel) :
  display stats limits status allocations = Ok d ->
  rendered_limit (block_child Disk d) = None
  /\ (status = "offline" ->
      forall r, rendered_limit (block_child r d) = None)
  /\ (status <> "offline" ->
      forall r, r <> Disk ->
        (unlimited (limit_of r limits) ->
         rendered_limit (block_child r d) = Some (Fragment [Text infin])
         /\ rendered_limit (block_child r d) <> Some (Text "0"))
        /\ (forall l,
              limit_of r limits = Some l ->
              (0 <? l)%float = true ->
              (formatted r l <> "" ->
               rendered_limit (block_child r d) = Some (Text (formatted r l)))
              /\ (r = CPU ->
                  rendered_limit (block_child r d) =
                  Some (Text (Number_toString l ++ "%")))))
  /\ (unlimited (Limits.disk limits) ->
      disk_description d =
      "No disk space limit has been configured for this server.")
  /\ (forall l,
        Limits.disk limits = Some l ->
        (0 <? l)%float = true ->
        disk_description d =
        "This server is allowed to use up to "
        ++ bytesToString (VNum (mbToBytes l)) ++ " of disk space.").
Proof.
  intros Hd. apply display_ok_inv in Hd as (uptime & cpu & _ & Hcpu & ->).
  cbn [block_child disk_text disk_description].
  split; [reflexivity |]. split; [| split; [| split]].
  - intros -> r. destruct r; cbn [block_child cpu_text memory_text disk_text];
      [| reflexivity | reflexivity].
    cbn in Hcpu. now injection Hcpu as <-.
  - intros Hs r Hr.
    assert (Hshown : rendered_limit
              (block_child r
                 {| uptime_text := uptime;
                    address_text := allocation allocations;
                    cpu_text := cpu;
                    cpu_description := cpuDescription limits;
                    memory_text := memoryText status limits stats;
                    memory_description := memoryDescription limits;
                    disk_text := diskText stats;
                    disk_description := diskDescription limits |})
            = Some (limit_node (text_of r (textLimits limits)))).
    { destruct r; [| | contradiction];
        cbn [block_child cpu_text memory_text text_of].
      - apply (cpuText_online_inv _ _ _ _ Hs) in Hcpu as (c & _ & ->).
        apply rendered_limit_Limit.
      - unfold memoryText. apply String.eqb_neq in Hs. rewrite Hs.
        apply rendered_limit_Limit. }
    rewrite Hshown. split.
    + intros Hz. apply configured_unlimited in Hz.
      assert (Ht : text_of r (textLimits limits) = None).
      { destruct r; cbn in *; now rewrite Hz. }
      rewrite Ht. cbn. split; [reflexivity | discriminate].
    + intros l Hl Hp.
      assert (Ht : text_of r (textLimits limits) = Some (formatted r l)).
      { destruct r; cbn in *; rewrite Hl;
          now rewrite (configured_positive _ Hp). }
      rewrite Ht. cbn [limit_node]. split.
      * intros Hne. now rewrite (string_truthy_nonempty _ Hne).
      * intros ->. cbn [formatted]. now rewrite append_truthy.
  - intros Hz. unfold diskDescription.
    now rewrite (configured_unlimited _ Hz).
  - intros l Hl Hp. unfold diskDescription.
    now rewrite Hl, (configured_positive _ Hp).
Qed.

(** C7.  The address is read off the allocation flagged as default: its
    alias when it has a (non-empty) one and its formatted IP otherwise,
    then a colon and the port; without a default allocation the address
    is the literal [n/a].  On the example list of the specification the
    address is [play:25566]. *)
Theorem address_from_default_allocation (allocations : list Allocation.t) :
  (forall before m after,
     allocations = (before ++ m :: after)%list ->
     Allocation.isDefault m = true ->
     (forall a, In a before \/ In a after -> Allocation.isDefault a = false) ->
     (forall a, Allocation.alias m = Some a -> a <> "" ->
        allocation allocations =
        a ++ ":" ++ Number_toString (Allocation.port m))
     /\ (Allocation.alias m = None \/ Allocation.alias m = Some "" ->
         allocation allocations =
         ip (Allocation.ip m) ++ ":" ++ Number_toString (Allocation.port m)))
  /\ ((forall a, In a allocations -> Allocation.isDefault a = false) ->
      allocation allocations = "n/a")
  /\ allocation
       [ {| Allocation.ip := "10.0.0.1"; Allocation.port := 25565%float;
            Allocation.alias := None; Allocation.isDefault := false |};
         {| Allocation.ip := "10.0.0.2"; Allocation.port := 25566%float;
            Allocation.alias := Some "play"; Allocation.isDefault := true |} ]
     = "play:25566".
Proof.
  split; [| split].
  - intros before m after -> Hm Hrest. unfold allocation.
    rewrite find_default_first by auto. unfold host. split.
    + intros a Ha Hne. rewrite Ha.
      now rewrite (string_truthy_nonempty _ Hne).
    + intros [Ha | Ha]; now rewrite Ha.
  - intros Hnone. unfold allocation. now rewrite find_default_none.
  - vm_compute. reflexivity.
Qed.

(** C10.  When several allocations are flagged as default the address
    is that of the first one in the list, whatever follows it; it is
    then never the placeholder [n/a]. *)
Theorem first_default_allocation_wins (before : list Allocation.t)
  (m : Allocation.t) (after : list Allocation.t) :
  (forall a, In a before -> Allocation.isDefault a = false) ->
  Allocation.isDefault m = true ->
  allocation (before ++ m :: after)%list =
  host m ++ ":" ++ Number_toString (Allocation.port m)
  /\ allocation (before ++ m :: after)%list <> "n/a".
Proof.
  intros Hb Hm. unfold allocation. rewrite find_default_first by assumption.
  split; [reflexivity | apply colon_not_placeholder].
Qed.

End Panel.

(* ================================================================= *)
(** ** The statistics channel *)

Section Channel.

Context `{Formatters}.

(** C3.  A [stats] event whose payload is not valid JSON changes
    nothing: the listener returns without calling [setStats], no
    exception leaves it, the state of the component (and so everything
    it shows) is what it was before the event. *)
Theorem malformed_stats_event_is_ignored (c : Component) (data : string)
  (e : error) :
  JSON_parse data = Throw e ->
  onStats data = Ok None
  /\ step c (StatsEvent data) = c
  /\ forall limits status allocations,
       shown (step c (StatsEvent data)) limits status allocations =
       shown c limits status allocations.
Proof.
  intros Hparse.
  assert (Hon : onStats data = Ok None) by (unfold onStats; now rewrite Hparse).
  assert (Hstep : step c (StatsEvent data) = c) by (cbn; now rewrite Hon).
  repeat split; try assumption. intros. now rewrite Hstep.
Qed.

(** C8.  A payload that decodes (to anything but [null]) replaces the
    snapshot as a whole: memory, CPU and disk are the members
    [memory_bytes], [cpu_absolute] and [disk_bytes] of the decoded
    value, the uptime is its member [uptime] when that is a number
    above zero (or any other truthy value) and 0 when the payload has
    no such member, and nothing of the previous snapshot is kept. *)
Theorem decoded_snapshot_replaces_previous (data : string) (decoded : value) :
  JSON_parse data = Ok decoded ->
  decoded <> null ->
  let field key :=
    match get decoded key with
    | Ok v => v
    | Throw _ => undefined
    end in
  (forall c,
     stats (step c (StatsEvent data)) =
     {| Stats.memory := field "memory_bytes";
        Stats.cpu := field "cpu_absolute";
        Stats.disk := field "disk_bytes";
        Stats.uptime := or_else (field "uptime") (VNum 0%float) |})
  /\ (forall c1 c2,
        stats (step c1 (StatsEvent data)) = stats (step c2 (StatsEvent data)))
  /\ (field "uptime" = undefined ->
      forall c, Stats.uptime (stats (step c (StatsEvent data))) = VNum 0%float)
  /\ (forall u,
        field "uptime" = VNum u ->
        (0 <? u)%float = true ->
        forall c, Stats.uptime (stats (step c (StatsEvent data))) = VNum u)
  /\ (forall c,
        Stats.memory (stats (step c (StatsEvent data))) = field "memory_bytes"
        /\ Stats.cpu (stats (step c (StatsEvent data))) = field "cpu_absolute"
        /\ Stats.disk (stats (step c (StatsEvent data))) = field "disk_bytes").
Proof.
  intros Hparse Hnull field.
  pose proof (JSON_parse_defined _ _ Hparse) as Hdef.
  assert (Hon : forall c,
    stats (step c (StatsEvent data)) =
    {| Stats.memory := field "memory_bytes";
       Stats.cpu := field "cpu_absolute";
       Stats.disk := field "disk_bytes";
       Stats.uptime := or_else (field "uptime") (VNum 0%float) |}).
  { intros c. cbn [step]. unfold onStats. rewrite Hparse. unfold field.
    destruct decoded as [| | b | n | s | elements | members];
      try contradiction; try reflexivity.
    unfold get.
    destruct (lookup "memory_bytes" members), (lookup "cpu_absolute" members),
      (lookup "disk_bytes" members), (lookup "uptime" members); reflexivity. }
  split; [exact Hon | split; [| split; [| split]]].
  - intros c1 c2. now rewrite !Hon.
  - intros Habsent c. rewrite Hon. cbn [Stats.uptime]. now rewrite Habsent.
  - intros u Hu Hpos c. rewrite Hon. cbn [Stats.uptime]. rewrite Hu.
    unfold or_else. cbn [truthy]. now rewrite (positive_truthy _ Hpos).
  - intros c. rewrite Hon. repeat split.
Qed.

(** C9.  What a mounted component shows is a function of the latest
    snapshot, the limits, the status and the allocations: after any
    history it is the display of the last snapshot an event has set,
    or of the all-zero snapshot when no event has set one, so two
    histories that agree on that snapshot show the same. *)
Theorem display_is_function_of_latest_snapshot (inputs : list Input)
  (limits : Limits.t) (status : string) (allocations : list Allocation.t) :
  shown (run inputs) limits status allocations =
  display (last (snapshots inputs) initialStats) limits status allocations
  /\ initialStats =
     {| Stats.memory := VNum 0%float; Stats.cpu := VNum 0%float;
        Stats.disk := VNum 0%float; Stats.uptime := VNum 0%float |}
  /\ (snapshots inputs = [] ->
      shown (run inputs) limits status allocations =
      display initialStats limits status allocations)
  /\ (forall inputs',
        last (snapshots inputs) initialStats =
        last (snapshots inputs') initialStats ->
        shown (run inputs) limits status allocations =
        shown (run inputs') limits status allocations).
Proof.
  unfold shown. repeat split.
  - now rewrite stats_run.
  - intros Hnone. now rewrite stats_run, Hnone.
  - intros inputs' Hsame. now rewrite !stats_run, Hsame.
Qed.

End Channel.

(** C5.  A commit sends one [SEND_STATS] request without payload when
    the socket is connected with its instance there and either this is
    the first commit or one of [instance] and [connected] has changed
    since the previous commit; it sends nothing otherwise.  So a commit
    at which the socket has gone from disconnected to connected, with
    its instance established, sends exactly one request through that
    instance, and a commit at which the socket is disconnected or has no
    instance sends nothing.  Over any history the requests sent are as
    many as the times the socket became ready (connected with an
    instance) plus the times the instance of a ready socket was
    exchanged; with one instance throughout these are the transitions
    into the connected state.  Nothing but [SEND_STATS] without
    payload is ever sent. *)
Theorem stats_requested_once_per_connect :
  (forall prev instance connected i,
     connected_before prev = false ->
     connected = true ->
     instance = Some i ->
     commit_sends prev instance connected =
     [{| via := i; request := SEND_STATS; payload := None |}])
  /\ (forall prev instance connected,
        connected = false \/ instance = None ->
        commit_sends prev instance connected = [])
  /\ (forall prev instance connected,
        List.length (commit_sends prev instance connected) =
        (if ready (instance, connected) && negb (ready_before prev)
         then 1 else 0)
        + match prev with
          | Some d => if replaced d (instance, connected) then 1 else 0
          | None => 0
          end)
  /\ (forall inputs,
        List.length (outbox (run inputs)) =
        ready_rises None (commits inputs) + replacements None (commits inputs))
  /\ (forall i inputs,
        (forall d, In d (commits inputs) -> fst d = None \/ fst d = Some i) ->
        List.length (outbox (run inputs)) = ready_rises None (commits inputs))
  /\ (forall i connected,
        List.length (outbox (run (map (Commit (Some i)) connected))) =
        rises false connected)
  /\ (forall inputs,
        Forall (fun m => request m = SEND_STATS /\ payload m = None)
               (outbox (run inputs))).
Proof.
  split; [| split; [| split; [| split; [| split; [| split]]]]].
  - intros prev instance connected i Hb -> ->.
    unfold commit_sends, effect_runs, same_deps.
    destruct prev as [[i0 c0] |]; [| reflexivity].
    cbn in Hb. subst c0. cbn. now rewrite andb_false_r.
  - intros prev instance connected Hoff. unfold commit_sends, requestStats.
    destruct (effect_runs _ _); [| reflexivity].
    destruct Hoff as [-> | ->]; [reflexivity | now destruct connected].
  - apply commit_sends_length.
  - intros inputs. unfold run. rewrite sends_count. reflexivity.
  - intros i inputs Hone. unfold run. rewrite sends_count.
    rewrite (replacements_one_instance i) by (discriminate || assumption).
    cbn. lia.
  - intros i connected. unfold run.
    rewrite sends_count_rises by (now left). reflexivity.
  - intros inputs. apply sends_are_stats_requests. constructor.
Qed.

(** C4.  A payload that is valid JSON of another shape is not ignored.
    The empty object and the number 5 both decode, so the listener
    calls [setStats] with the members it did not find: the snapshot
    that was all zeros now holds [undefined] for memory, CPU and disk,
    and the next render under the status [running], which succeeded
    before the event, throws a [TypeError] at [stats.cpu.toFixed].
    The payload [null] decodes as well, and the listener itself throws
    a [TypeError] when it reads [memory_bytes] off it. *)
Theorem wrong_shape_payload_overwrites_snapshot `{Formatters}
  (limits : Limits.t) (allocations : list Allocation.t) :
  let blank :=
    {| Stats.memory := undefined; Stats.cpu := undefined;
       Stats.disk := undefined; Stats.uptime := VNum 0%float |} in
  JSON_parse "{}" = Ok (VObj [])
  /\ JSON_parse "5" = Ok (VNum 5%float)
  /\ stats (step mount (StatsEvent "{}")) = blank
  /\ stats (step mount (StatsEvent "5")) = blank
  /\ blank <> stats mount
  /\ is_ok (ServerDetailsBlock None (stats mount) limits "running"
              allocations) = true
  /\ ServerDetailsBlock None (stats (step mount (StatsEvent "{}")))
       limits "running" allocations = Throw TypeError
  /\ JSON_parse "null" = Ok null
  /\ escaped (step mount (StatsEvent "null")) = [TypeError].
Proof.
  intros blank. repeat split; try (vm_compute; reflexivity).
  discriminate.
Qed.

(* ================================================================= *)
(** ** Further properties of the panel *)

Section PanelMore.

Context `{Formatters}.

Lemma append_assoc (a b c : string) : (a ++ b) ++ c = a ++ (b ++ c).
Proof. induction a as [| x a IH]; cbn; [reflexivity | now rewrite IH]. Qed.

Lemma negative_truthy (x : number) :
  (x <? 0)%float = true -> number_truthy x = true.
Proof.
  unfold number_truthy, is_nan. rewrite ltb_spec, !eqb_spec.
  change (Prim2SF 0) with (S754_zero false).
  destruct (Prim2SF x) as [s | s | | s m e]; cbn; try discriminate.
  - destruct s; cbn; [reflexivity | discriminate].
  - destruct s; cbn; [| discriminate].
    now rewrite Z.compare_refl, Pos.compare_refl.
Qed.

Lemma configured_none (limit : option number) :
  configured limit = None <->
  match limit with
  | Some l => (l =? 0)%float = true \/ is_nan l = true
  | None => True
  end.
Proof.
  destruct limit as [l |]; cbn; [| tauto]. unfold number_truthy.
  destruct (l =? 0)%float, (is_nan l); cbn; intuition discriminate.
Qed.

Lemma text_of_configured (r : Resource) (limits : Limits.t) :
  text_of r (textLimits limits) =
  match configured (limit_of r limits) with
  | Some l => Some (formatted r l)
  | None => None
  end.
Proof. destruct r; reflexivity. Qed.

(** X1.  The description of a block and the limit text of its resource
    agree: either the resource has no limit text and the description is
    the sentence that no limit is configured, or the description is the
    allowance sentence built around that very text. *)
Theorem description_agrees_with_limit_text (r : Resource) (limits : Limits.t) :
  (text_of r (textLimits limits) = None
   /\ description_of r limits = unlimited_sentence r)
  \/ (exists t,
        text_of r (textLimits limits) = Some t
        /\ description_of r limits =
           allowance_prefix ++ t ++ allowance_suffix r).
Proof.
  rewrite text_of_configured.
  destruct r; cbn [limit_of description_of];
    unfold cpuDescription, memoryDescription, diskDescription;
    match goal with
    | |- context [configured ?l] => destruct (configured l) as [x |]
    end;
    try (left; split; reflexivity);
    right; eexists; (split; [reflexivity |]);
    cbn [formatted allowance_suffix]; unfold allowance_prefix;
    rewrite ?append_assoc; reflexivity.
Qed.

(** X2.  A resource has no limit text exactly when its limit is absent,
    zero or [NaN]; every other number counts as a configured limit, a
    negative one included, and is shown formatted. *)
Theorem limit_text_absent_iff (r : Resource) (limits : Limits.t) :
  (text_of r (textLimits limits) = None <->
   match limit_of r limits with
   | Some l => (l =? 0)%float = true \/ is_nan l = true
   | None => True
   end)
  /\ (forall l,
        limit_of r limits = Some l ->
        (l <? 0)%float = true ->
        text_of r (textLimits limits) = Some (formatted r l)).
Proof.
  rewrite text_of_configured. split.
  - rewrite <- configured_none.
    destruct (configured (limit_of r limits)); split; congruence.
  - intros l -> Hneg. cbn. now rewrite (negative_truthy _ Hneg).
Qed.


(** X4.  Under the status [offline] the panel shows nothing of the
    CPU and memory of the snapshot: two snapshots with the same disk
    and uptime values are displayed alike. *)
Theorem offline_hides_cpu_and_memory (s1 s2 : Stats.t) (limits : Limits.t)
  (allocations : list Allocation.t) :
  Stats.disk s1 = Stats.disk s2 ->
  Stats.uptime s1 = Stats.uptime s2 ->
  display s1 limits "offline" allocations =
  display s2 limits "offline" allocations.
Proof.
  intros Hd Hu. unfold display, cpuText, memoryText, diskText, uptimeText.
  cbn. now rewrite Hd, Hu.
Qed.

(** X5.  The disk limit reaches the panel through the description of
    the disk block only: two sets of limits with the same CPU and memory
    limits give displays that differ at most in that description. *)
Theorem disk_limit_shows_in_description_only (stats : Stats.t)
  (l1 l2 : Limits.t) (status : string) (allocations : list Allocation.t)
  (d1 d2 : DisplayModel) :
  Limits.cpu l1 = Limits.cpu l2 ->
  Limits.memory l1 = Limits.memory l2 ->
  display stats l1 status allocations = Ok d1 ->
  display stats l2 status allocations = Ok d2 ->
  uptime_text d1 = uptime_text d2
  /\ address_text d1 = address_text d2
  /\ cpu_text d1 = cpu_text d2
  /\ cpu_description d1 = cpu_description d2
  /\ memory_text d1 = memory_text d2
  /\ memory_description d1 = memory_description d2
  /\ disk_text d1 = disk_text d2.
Proof.
  intros Hc Hm H1 H2.
  apply display_ok_inv in H1 as (u1 & c1 & Hu1 & Hc1 & ->).
  apply display_ok_inv in H2 as (u2 & c2 & Hu2 & Hc2 & ->).
  rewrite Hu1 in Hu2. injection Hu2 as <-.
  assert (Hcpu : c1 = c2).
  { unfold cpuText, textLimits in Hc1, Hc2.
    cbn [TextLimits.cpu] in Hc1, Hc2. rewrite Hc in Hc1.
    rewrite Hc1 in Hc2. now injection Hc2. }
  unfold memoryText, cpuDescription, memoryDescription, textLimits.
  cbn [uptime_text address_text cpu_text cpu_description memory_text
       memory_description disk_text TextLimits.memory].
  rewrite Hc, Hm, Hcpu. repeat split.
Qed.

(** X6.  Whenever rendering succeeds the tree is one [div] whose class
    is the grid classes followed by the [className] prop, holding six
    blocks in a fixed order: Uptime, Address (the allocation text, which
    no snapshot, status or limit influences), CPU Load, Memory, Disk and
    the block that saves the console logs. *)
Theorem panel_has_six_blocks (className : option string) (stats : Stats.t)
  (limits : Limits.t) (status : string) (allocations : list Allocation.t)
  (tree : Node) :
  ServerDetailsBlock className stats limits status allocations = Ok tree ->
  exists children,
    tree = Div (classNames "grid grid-cols-6 gap-2 md:gap-4" className) children
    /\ map block_title children =
       [Some "Uptime"; Some "Address"; Some "CPU Load"; Some "Memory";
        Some "Disk"; Some "Save Console Logs"]
    /\ map block_icon children =
       [Some faClock; Some faWifi; Some faMicrochip; Some faMemory;
        Some faHdd; Some faScroll]
    /\ nth_error children 1 =
       Some (StatBlock faWifi "Address" None [Text (allocation allocations)])
    /\ nth_error children 5 =
       Some (StatBlock faScroll "Save Console Logs"
               (Some "Saves the console logs to a file.")
               [ConsoleShareContainer]).
Proof.
  unfold ServerDetailsBlock.
  destruct (display stats limits status allocations) as [d | e] eqn:Hd;
    cbn [bind]; [| discriminate].
  intros [= <-]. eexists. split; [reflexivity |].
  apply display_ok_inv in Hd as (uptime & cpu & _ & _ & ->).
  cbn. repeat split.
Qed.

(** X7.  The address depends on the first default allocation only:
    allocations listed after it, and allocations that are not default
    listed before the others, never change it. *)
Theorem address_ignores_other_allocations
  (before allocations after : list Allocation.t) (m : Allocation.t) :
  (forall a, In a before -> Allocation.isDefault a = false) ->
  find_default allocations = Some m ->
  allocation (before ++ allocations ++ after)%list = allocation allocations
  /\ allocation (before ++ allocations)%list = allocation allocations
  /\ allocation (allocations ++ after)%list = allocation allocations.
Proof.
  intros Hb Hm.
  assert (Hafter : forall l, find_default (allocations ++ l)%list = Some m).
  { intros l. unfold find_default in *. revert Hm.
    induction allocations as [| a rest IH]; cbn; [discriminate |].
    destruct (Allocation.isDefault a); [trivial | exact IH]. }
  assert (Hbefore : forall l, find_default (before ++ l)%list = find_default l).
  { intros l. unfold find_default.
    induction before as [| a rest IH]; cbn; [reflexivity |].
    rewrite (Hb a (or_introl eq_refl)). apply IH.
    intros b Hin. apply Hb. now right. }
  unfold allocation. rewrite !Hbefore, !Hafter, Hm. repeat split.
Qed.

End PanelMore.

(* ================================================================= *)
(** ** Further properties of the statistics channel *)

Section ChannelMore.

Context `{Formatters}.

Lemma onStats_decoded (data : string) (decoded : value) :
  JSON_parse data = Ok decoded ->
  decoded <> null ->
  onStats data = Ok (Some (snapshot_of decoded)).
Proof.
  intros Hparse Hnull. pose proof (JSON_parse_defined _ _ Hparse) as Hdef.
  unfold onStats. rewrite Hparse. unfold snapshot_of, member.
  destruct decoded as [| | b | n | s | elements | members];
    try contradiction; try reflexivity.
  unfold get.
  destruct (lookup "memory_bytes" members), (lookup "cpu_absolute" members),
    (lookup "disk_bytes" members), (lookup "uptime" members); reflexivity.
Qed.

Lemma onStats_null (data : string) :
  JSON_parse data = Ok null -> onStats data = Throw TypeError.
Proof. intros Hparse. unfold onStats. now rewrite Hparse. Qed.

Lemma onStats_set (data : string) (s : Stats.t) :
  onStats data = Ok (Some s) ->
  exists decoded,
    JSON_parse data = Ok decoded /\ decoded <> null /\ s = snapshot_of decoded.
Proof.
  destruct (JSON_parse data) as [decoded | e] eqn:Hparse.
  - destruct decoded as [| | b | n | t | elements | members] eqn:Hd;
      try (rewrite (onStats_decoded _ _ Hparse) by discriminate;
           intros [= <-]; eexists;
           split; [reflexivity | split; [discriminate | reflexivity]]).
    now rewrite (onStats_null _ Hparse).
  - unfold onStats. rewrite Hparse. discriminate.
Qed.

Lemma or_else_defaulted (v : value) : defaulted (or_else v (VNum 0%float)).
Proof.
  unfold defaulted, or_else. destruct (truthy v) eqn:Ht; [now right | now left].
Qed.

Lemma last_Forall {A : Type} (P : A -> Prop) (l : list A) (d : A) :
  Forall P l -> P d -> P (last l d).
Proof.
  intros Hl Hd. induction Hl as [| a l Ha Hl IH]; [exact Hd |].
  rewrite last_cons. clear IH. revert a Ha.
  induction Hl as [| b l Hb Hl IH]; intros a Ha; [exact Ha |].
  rewrite last_cons. now apply IH.
Qed.

Lemma snapshots_Forall (P : Stats.t -> Prop) (inputs : list Input) :
  (forall data s, In (StatsEvent data) inputs ->
                  onStats data = Ok (Some s) -> P s) ->
  Forall P (snapshots inputs).
Proof.
  induction inputs as [| i rest IH]; intros Hall; [constructor |].
  assert (Hrest : Forall P (snapshots rest)).
  { apply IH. intros data s Hin. apply Hall. now right. }
  destruct i as [instance connected | data]; cbn [snapshots]; [exact Hrest |].
  destruct (onStats data) as [[s |] | e] eqn:Hon; try exact Hrest.
  constructor; [| exact Hrest]. apply (Hall data); [now left | exact Hon].
Qed.




(** X8.  The listener throws on one kind of payload only: it throws
    exactly when the payload decodes to [null], and what it throws is
    then a [TypeError]; invalid JSON never makes it throw. *)
Theorem listener_throws_iff_null (data : string) (e : error) :
  onStats data = Throw e <-> e = TypeError /\ JSON_parse data = Ok null.
Proof.
  split.
  - destruct (JSON_parse data) as [decoded | e'] eqn:Hparse.
    + destruct decoded as [| | b | n | t | elements | members] eqn:Hd;
        try (rewrite (onStats_decoded _ _ Hparse) by discriminate;
             discriminate).
      rewrite (onStats_null _ Hparse). now intros [= <-].
    + unfold onStats. rewrite Hparse. discriminate.
  - intros [-> Hparse]. now apply onStats_null.
Qed.

(** X9.  Whatever events arrive, the uptime of the snapshot is the
    number 0 or a truthy value: it is never [undefined], [null],
    [false], the empty string or [NaN]. *)
Theorem uptime_is_always_defaulted (inputs : list Input) :
  defaulted (Stats.uptime (stats (run inputs)))
  /\ Stats.uptime (stats (run inputs)) <> undefined
  /\ Stats.uptime (stats (run inputs)) <> null.
Proof.
  assert (Hd : defaulted (Stats.uptime (stats (run inputs)))).
  { rewrite stats_run.
    apply (last_Forall (fun s => defaulted (Stats.uptime s))).
    - apply snapshots_Forall. intros data s _ Hon.
      apply onStats_set in Hon as (decoded & _ & _ & ->).
      apply or_else_defaulted.
    - now left. }
  split; [exact Hd |].
  destruct Hd as [Hz | Ht]; split; intros E; rewrite E in *; discriminate.
Qed.





End ChannelMore.

(** *** The effect over histories *)

Lemma same_deps_refl (d : Deps) : same_deps d d = true.
Proof.
  destruct d as [[i |] b]; unfold same_deps; cbn;
    rewrite ?Nat.eqb_refl; now destruct b.
Qed.

Lemma run_from_commits (inputs : list Input) (c c' : Component) :
  outbox c = outbox c' ->
  deps c = deps c' ->
  outbox (run_from c inputs) = outbox (run_from c' (filter is_commit inputs)).
Proof.
  unfold run_from. revert c c'.
  induction inputs as [| i rest IH]; intros c c' Ho Hd; [exact Ho |].
  destruct i as [instance connected | data]; cbn [filter is_commit fold_left].
  - apply IH; cbn; now rewrite ?Ho, ?Hd.
  - apply IH; cbn [step]; destruct (onStats data) as [[s |] | e]; assumption.
Qed.

Lemma outbox_run_from (inputs : list Input) (c : Component) (m : Sent) :
  In m (outbox (run_from c inputs)) ->
  In m (outbox c) \/ In (Commit (Some (via m)) true) inputs.
Proof.
  unfold run_from. revert c.
  induction inputs as [| i rest IH]; intros c Hin; [now left |].
  cbn [fold_left] in Hin. apply IH in Hin as [Hin | Hin]; [| right; now right].
  destruct i as [instance connected | data].
  - cbn [step outbox] in Hin. apply in_app_or in Hin as [Hin | Hin];
      [now left |].
    right. left. unfold commit_sends, requestStats in Hin.
    destruct (effect_runs _ _), connected, instance as [j |];
      cbn in Hin; try contradiction.
    destruct Hin as [<- | []]. reflexivity.
  - left. cbn [step] in Hin.
    destruct (onStats data) as [[s |] | e]; exact Hin.
Qed.

Lemma escaped_run_from (inputs : list Input) (c : Component) (e : error) :
  In e (escaped (run_from c inputs)) ->
  In e (escaped c)
  \/ (e = TypeError
      /\ exists data, In (StatsEvent data) inputs /\ JSON_parse data = Ok null).
Proof.
  unfold run_from. revert c.
  induction inputs as [| i rest IH]; intros c Hin; [now left |].
  cbn [fold_left] in Hin. apply IH in Hin as [Hin | (-> & data & Hd & Hp)].
  - destruct i as [instance connected | data]; [now left |].
    cbn [step] in Hin.
    destruct (onStats data) as [[s |] | e'] eqn:Hon; try (now left).
    cbn [escaped] in Hin. apply in_app_or in Hin as [Hin | [<- | []]];
      [now left |].
    right. unfold onStats in Hon.
    destruct (JSON_parse data) as [decoded | e''] eqn:Hparse;
      [| discriminate].
    pose proof (JSON_parse_defined _ _ Hparse) as Hdef.
    destruct decoded as [| | b | n | t | elements | members];
      try contradiction; cbn in Hon; try discriminate.
    + injection Hon as <-. split; [reflexivity |].
      exists data. split; [now left | exact Hparse].
    + unfold get in Hon.
      destruct (lookup "memory_bytes" members),
        (lookup "cpu_absolute" members), (lookup "disk_bytes" members),
        (lookup "uptime" members); discriminate.
  - right. split; [reflexivity |]. exists data. split; [now right | exact Hp].
Qed.

(** X14.  Stats events never send anything: the requests sent over a
    history are those of its commits alone. *)
Theorem requests_depend_on_commits_only (inputs : list Input) :
  outbox (run inputs) = outbox (run (filter is_commit inputs)).
Proof. unfold run. now apply run_from_commits. Qed.

(** X15.  A commit that repeats the dependencies of the previous one
    (a re-render caused by a new snapshot, say) sends no request. *)
Theorem rerender_sends_nothing (c : Component) (instance : option Instance)
  (connected : bool) :
  commit_sends (Some (instance, connected)) instance connected = []
  /\ outbox (step (step c (Commit instance connected))
                  (Commit instance connected))
     = outbox (step c (Commit instance connected)).
Proof.
  assert (Hnone : commit_sends (Some (instance, connected)) instance connected
                  = []).
  { unfold commit_sends, effect_runs. now rewrite same_deps_refl. }
  split; [exact Hnone |].
  cbn [step outbox deps]. rewrite Hnone. apply app_nil_r.
Qed.

(** X16.  While the socket stays connected, a commit that brings
    another instance (a first one, or a replacement) sends one request
    through the new instance. *)
Theorem new_instance_requests_stats (previous : option Instance)
  (was_connected : bool) (j : Instance) :
  previous <> Some j ->
  commit_sends (Some (previous, was_connected)) (Some j) true =
  [stats_request j].
Proof.
  intros Hnew. unfold commit_sends, effect_runs, same_deps. cbn [fst snd].
  destruct previous as [i |]; [| reflexivity].
  destruct (Nat.eqb i j) eqn:Hij; [| reflexivity].
  apply Nat.eqb_eq in Hij. congruence.
Qed.

(** X17.  Every request ever sent went through an instance that some
    commit saw connected: nothing is sent through an instance that was
    never connected. *)
Theorem requests_use_connected_instances (inputs : list Input) (m : Sent) :
  In m (outbox (run inputs)) ->
  In (Commit (Some (via m)) true) inputs.
Proof.
  intros Hin. apply outbox_run_from in Hin as [[] | Hin]. exact Hin.
Qed.

(** X18.  The only exception that ever leaves the listener is a
    [TypeError], and only for a payload that decodes to [null]: a
    history without such a payload lets nothing escape. *)
Theorem only_null_payloads_escape (inputs : list Input) :
  (forall e, In e (escaped (run inputs)) ->
     e = TypeError
     /\ exists data, In (StatsEvent data) inputs /\ JSON_parse data = Ok null)
  /\ ((forall data, In (StatsEvent data) inputs -> JSON_parse data <> Ok null) ->
      escaped (run inputs) = []).
Proof.
  assert (Hall : forall e, In e (escaped (run inputs)) ->
     e = TypeError
     /\ exists data, In (StatsEvent data) inputs /\ JSON_parse data = Ok null).
  { intros e Hin. apply escaped_run_from in Hin as [[] | Hin]. exact Hin. }
  split; [exact Hall |].
  intros Hnone. destruct (escaped (run inputs)) as [| e rest] eqn:He;
    [reflexivity |].
  destruct (Hall e (or_introl eq_refl)) as (_ & data & Hin & Hp).
  now apply Hnone in Hin.
Qed.

(* ================================================================= *)
(** ** The properties on concrete inputs *)

Module Witnesses.

Import Samples.

#[local] Existing Instance SpecFormatters.formatters.

(** The end-to-end example of the specification: one request on
    connect, then the panel of a running server after one stats
    event. *)
Example end_to_end :
  let c := run [Commit (Some 1) true; StatsEvent end_to_end_payload] in
  outbox c = [{| via := 1; request := SEND_STATS; payload := None |}]
  /\ ServerDetailsBlock None (stats c) end_to_end_limits "running"
       [secondary; primary]
     = Ok (Div "grid grid-cols-6 gap-2 md:gap-4"
             [StatBlock faClock "Uptime" None [UptimeDuration 5%float];
              StatBlock faWifi "Address" None [Text "play:25566"];
              StatBlock faMicrochip "CPU Load"
                (Some "This server is allowed to use up to 50% of the host's available CPU resources.")
                [Fragment
                   [Text "12.35"; Text "%";
                    Span "ml-1 text-gray-300 text-[70%] select-none"
                      [Text "/ "; Text "50%"]]];
              StatBlock faMemory "Memory"
                (Some "This server is allowed to use up to 512.00 MiB of memory.")
                [Fragment
                   [Text "1.00 MiB";
                    Span "ml-1 text-gray-300 text-[70%] select-none"
                      [Text "/ "; Text "512.00 MiB"]]];
              StatBlock faHdd "Disk"
                (Some "This server is allowed to use up to 1.00 GiB of disk space.")
                [Text "1.86 GiB"];
              StatBlock faScroll "Save Console Logs"
                (Some "Saves the console logs to a file.")
                [ConsoleShareContainer]]).
Proof. split; vm_compute; reflexivity. Qed.

Lemma uptime_text_by_status_witness :
  uptimeText "stopping" snapshot = Ok (Text "Stopping")
  /\ uptimeText "running" snapshot = Ok (UptimeDuration 5%float)
  /\ uptimeText "offline" initialStats = Ok (Text "Offline").
Proof.
  split; [| split].
  - exact (proj1 (uptime_text_by_status "stopping" snapshot)
                 (or_intror eq_refl)).
  - refine (proj1 (proj2 (uptime_text_by_status "running" snapshot)
                     5000%float _ _ eq_refl) eq_refl); discriminate.
  - refine (proj2 (proj2 (uptime_text_by_status "offline" initialStats)
                     0%float _ _ eq_refl) eq_refl); discriminate.
Defined.


Lemma rendered_limit_by_resource_witness :
  exists d,
    display snapshot limits "running" [primary] = Ok d
    /\ rendered_limit (cpu_text d) = Some (Text "50%")
    /\ rendered_limit (memory_text d) = Some (Fragment [Text infin])
    /\ rendered_limit (disk_text d) = None
    /\ disk_description d =
       "No disk space limit has been configured for this server.".
Proof.
  destruct (display snapshot limits "running" [primary]) as [d | e] eqn:Hd;
    [| vm_compute in Hd; discriminate Hd].
  exists d. split; [reflexivity |].
  destruct (rendered_limit_by_resource _ _ _ _ _ Hd)
    as (Hdisk & _ & Honline & Hnone & _).
  assert (Hs : "running" <> "offline") by discriminate.
  split; [| split; [| split; [exact Hdisk | exact (Hnone I)]]].
  - refine (proj2 (proj2 (Honline Hs CPU _) 50%float eq_refl eq_refl) eq_refl).
    discriminate.
  - refine (proj1 (proj1 (Honline Hs Memory _) eq_refl)). discriminate.
Defined.

(** The disk block of a panel without a disk limit shows no infinity
    sign: it shows no limit text at all. *)
Lemma disk_limit_text_counterexample :
  ~ (forall (r : Resource) (d : DisplayModel),
       display initialStats limits "running" [primary] = Ok d ->
       unlimited (limit_of r limits) ->
       rendered_limit (block_child r d) = Some (Fragment [Text infin])).
Proof.
  intros Hclaim.
  destruct (display initialStats limits "running" [primary]) as [d | e] eqn:Hd;
    [| vm_compute in Hd; discriminate Hd].
  specialize (Hclaim Disk d eq_refl I).
  vm_compute in Hd. injection Hd as <-. discriminate Hclaim.
Qed.

Lemma address_from_default_allocation_witness :
  allocation [secondary; primary] = "play:25566"
  /\ allocation [secondary] = "n/a".
Proof.
  split.
  - destruct (address_from_default_allocation [secondary; primary])
      as [Hdefault _].
    destruct (Hdefault [secondary] primary [] eq_refl eq_refl) as [Halias _].
    + intros a [[<- | []] | []]. reflexivity.
    + apply (Halias "play" eq_refl). discriminate.
  - destruct (address_from_default_allocation [secondary]) as (_ & Hnone & _).
    apply Hnone. intros a [<- | []]. reflexivity.
Defined.

Lemma first_default_allocation_wins_witness :
  allocation [secondary; primary; also_default] = "play:25566"
  /\ allocation [secondary; primary; also_default] <> "n/a".
Proof.
  apply (first_default_allocation_wins [secondary] primary [also_default]).
  - intros a [<- | []]. reflexivity.
  - reflexivity.
Defined.

Lemma malformed_stats_event_is_ignored_witness :
  JSON_parse truncated = Throw SyntaxError
  /\ step (run [Commit (Some 1) true; StatsEvent stats_payload])
          (StatsEvent truncated)
     = run [Commit (Some 1) true; StatsEvent stats_payload].
Proof.
  assert (Hbad : JSON_parse truncated = Throw SyntaxError)
    by (vm_compute; reflexivity).
  split; [exact Hbad |].
  exact (proj1 (proj2 (malformed_stats_event_is_ignored _ _ _ Hbad))).
Defined.

Lemma decoded_snapshot_replaces_previous_witness :
  stats (step (run [StatsEvent stats_payload]) (StatsEvent later_payload))
  = {| Stats.memory := VNum 2097152%float; Stats.cpu := VNum 50.25%float;
       Stats.disk := VNum 4000000000%float; Stats.uptime := VNum 7000%float |}
  /\ Stats.uptime
       (stats (step (run [StatsEvent stats_payload]) (StatsEvent later_payload)))
     = VNum 7000%float
  /\ Stats.uptime
       (stats (step (run [StatsEvent stats_payload])
                    (StatsEvent payload_without_uptime)))
     = VNum 0%float.
Proof.
  assert (Hlater : JSON_parse later_payload =
                   Ok (VObj [("memory_bytes", VNum 2097152%float);
                             ("cpu_absolute", VNum 50.25%float);
                             ("disk_bytes", VNum 4000000000%float);
                             ("uptime", VNum 7000%float)]))
    by (vm_compute; reflexivity).
  assert (Hwithout : JSON_parse payload_without_uptime =
                     Ok (VObj [("memory_bytes", VNum 1048576%float);
                               ("cpu_absolute", VNum 12.5%float);
                               ("disk_bytes", VNum 2000000000%float)]))
    by (vm_compute; reflexivity).
  assert (Hobject : forall members, VObj members <> null) by discriminate.
  destruct (decoded_snapshot_replaces_previous _ _ Hlater (Hobject _))
    as (Hfields & _ & _ & Hpresent & _).
  destruct (decoded_snapshot_replaces_previous _ _ Hwithout (Hobject _))
    as (_ & _ & Habsent & _).
  split; [exact (Hfields (run [StatsEvent stats_payload])) | split].
  - exact (Hpresent 7000%float eq_refl eq_refl (run [StatsEvent stats_payload])).
  - exact (Habsent eq_refl (run [StatsEvent stats_payload])).
Defined.

Lemma display_is_function_of_latest_snapshot_witness :
  shown (run [Commit (Some 1) true; StatsEvent payload_without_uptime;
              StatsEvent stats_payload; Commit (Some 1) false])
        limits "running" [primary]
  = shown (run [StatsEvent stats_payload; StatsEvent truncated])
          limits "running" [primary].
Proof.
  destruct (display_is_function_of_latest_snapshot
              [Commit (Some 1) true; StatsEvent payload_without_uptime;
               StatsEvent stats_payload; Commit (Some 1) false]
              limits "running" [primary]) as (_ & _ & _ & Hsame).
  apply Hsame. vm_compute. reflexivity.
Defined.

Lemma stats_requested_once_per_connect_witness :
  commit_sends (Some (Some 1, false)) (Some 1) true =
    [{| via := 1; request := SEND_STATS; payload := None |}]
  /\ commit_sends (Some (Some 1, true)) (Some 1) false = []
  /\ commit_sends None None true = []
  /\ List.length
       (outbox (run [Commit None true; Commit (Some 1) true;
                     StatsEvent stats_payload; Commit (Some 1) false;
                     Commit (Some 1) true; Commit (Some 2) true]))
     = 2 + 1
  /\ List.length
       (outbox (run [Commit None false; Commit None true;
                     Commit (Some 1) true; Commit (Some 1) false;
                     Commit (Some 1) true]))
     = 2
  /\ List.length
       (outbox (run (map (Commit (Some 1)) [false; true; true; false; true])))
     = 2.
Proof.
  destruct stats_requested_once_per_connect
    as (Hconnect & Hsilent & _ & Hcount & Hone & Hrises & _).
  split; [| split; [| split; [| split; [| split]]]].
  - exact (Hconnect (Some (Some 1, false)) (Some 1) true 1
             eq_refl eq_refl eq_refl).
  - apply Hsilent. now left.
  - apply Hsilent. now right.
  - exact (Hcount [Commit None true; Commit (Some 1) true;
                   StatsEvent stats_payload; Commit (Some 1) false;
                   Commit (Some 1) true; Commit (Some 2) true]).
  - refine (Hone 1 [Commit None false; Commit None true;
                    Commit (Some 1) true; Commit (Some 1) false;
                    Commit (Some 1) true] _).
    intros d [<- | [<- | [<- | [<- | [<- | []]]]]]; cbn; tauto.
  - exact (Hrises 1 [false; true; true; false; true]).
Defined.

(** Requests are not one per transition into the connected state on
    every history: when the instance is exchanged while the socket
    stays connected, two requests go out for a single transition. *)
Lemma request_count_counterexample :
  ~ (forall inputs,
       List.length (outbox (run inputs)) =
       rises false (map snd (commits inputs))).
Proof.
  intros Hclaim.
  specialize (Hclaim [Commit (Some 1) true; Commit (Some 2) true]).
  vm_compute in Hclaim. discriminate Hclaim.
Qed.

End Witnesses.

(* ================================================================= *)
(** ** The further properties on concrete inputs *)

Module MoreWitnesses.

Import Samples MoreSamples.

#[local] Existing Instance SpecFormatters.formatters.

(** The unreadable snapshot is the one its payload leaves. *)
Example unreadable_payload_snapshot :
  stats (run [StatsEvent unreadable_payload]) = unreadable_uptime.
Proof. vm_compute. reflexivity. Qed.

Lemma description_agrees_with_limit_text_witness :
  description_of CPU end_to_end_limits =
  allowance_prefix ++ "50%" ++ allowance_suffix CPU.
Proof.
  destruct (description_agrees_with_limit_text CPU end_to_end_limits)
    as [[Hnone _] | (t & Ht & Hd)]; [discriminate Hnone |].
  injection Ht as <-. exact Hd.
Defined.

Lemma limit_text_absent_iff_witness :
  text_of Memory (textLimits odd_limits) = None
  /\ text_of CPU (textLimits odd_limits) = Some "-5%".
Proof.
  split.
  - apply (proj1 (limit_text_absent_iff Memory odd_limits)).
    right. reflexivity.
  - exact (proj2 (limit_text_absent_iff CPU odd_limits) (-5)%float
             eq_refl eq_refl).
Defined.


Lemma offline_hides_cpu_and_memory_witness :
  display blank limits "offline" [primary] =
  display {| Stats.memory := VNum 7%float; Stats.cpu := VStr "busy";
             Stats.disk := undefined; Stats.uptime := VNum 0%float |}
          limits "offline" [primary].
Proof.
  apply offline_hides_cpu_and_memory; reflexivity.
Defined.

Lemma disk_limit_shows_in_description_only_witness :
  exists d1 d2,
    display snapshot limits "running" [primary] = Ok d1
    /\ display snapshot
         {| Limits.cpu := Some 50%float; Limits.memory := Some 0%float;
            Limits.disk := Some 1024%float |} "running" [primary] = Ok d2
    /\ disk_text d1 = disk_text d2
    /\ cpu_text d1 = cpu_text d2.
Proof.
  eexists. eexists. split; [reflexivity |]. split; [reflexivity |].
  destruct (disk_limit_shows_in_description_only snapshot limits
              {| Limits.cpu := Some 50%float; Limits.memory := Some 0%float;
                 Limits.disk := Some 1024%float |} "running" [primary]
              _ _ eq_refl eq_refl eq_refl eq_refl)
    as (_ & _ & Hcpu & _ & _ & _ & Hdisk).
  split; [exact Hdisk | exact Hcpu].
Defined.

Lemma panel_has_six_blocks_witness :
  exists tree children,
    ServerDetailsBlock (Some "mt-4") snapshot limits "running"
      [secondary; primary] = Ok tree
    /\ tree = Div "grid grid-cols-6 gap-2 md:gap-4 mt-4" children
    /\ List.length children = 6.
Proof.
  destruct (ServerDetailsBlock (Some "mt-4") snapshot limits "running"
              [secondary; primary]) as [tree | e] eqn:Hrender;
    [| discriminate Hrender].
  destruct (panel_has_six_blocks _ _ _ _ _ _ Hrender)
    as (children & Htree & Htitles & _).
  exists tree, children. split; [reflexivity |]. split; [exact Htree |].
  rewrite <- (List.length_map block_title), Htitles. reflexivity.
Defined.

Lemma address_ignores_other_allocations_witness :
  allocation [secondary; primary; also_default] = allocation [primary].
Proof.
  refine (proj1 (address_ignores_other_allocations
                   [secondary] [primary] [also_default] primary _ eq_refl)).
  intros a [<- | []]. reflexivity.
Defined.

Lemma listener_throws_iff_null_witness :
  onStats "null" = Throw TypeError.
Proof.
  apply (proj2 (listener_throws_iff_null "null" TypeError)).
  split; [reflexivity | vm_compute; reflexivity].
Defined.

Lemma uptime_is_always_defaulted_witness :
  Stats.uptime (stats (run [StatsEvent "{}"; StatsEvent "[]";
                            StatsEvent truncated])) <> undefined.
Proof.
  exact (proj1 (proj2 (uptime_is_always_defaulted
                         [StatsEvent "{}"; StatsEvent "[]";
                          StatsEvent truncated]))).
Defined.





Lemma requests_depend_on_commits_only_witness :
  outbox (run [Commit (Some 1) true; StatsEvent stats_payload;
               Commit (Some 1) false; StatsEvent "{}"; Commit (Some 1) true])
  = [stats_request 1; stats_request 1].
Proof.
  rewrite requests_depend_on_commits_only. reflexivity.
Defined.

Lemma rerender_sends_nothing_witness :
  outbox (run [Commit (Some 1) true; Commit (Some 1) true]) = [stats_request 1].
Proof.
  exact (proj2 (rerender_sends_nothing mount (Some 1) true)).
Defined.

Lemma new_instance_requests_stats_witness :
  commit_sends (Some (Some 1, true)) (Some 2) true = [stats_request 2]
  /\ commit_sends (Some (None, true)) (Some 2) true = [stats_request 2].
Proof.
  split; apply new_instance_requests_stats; discriminate.
Defined.

Lemma requests_use_connected_instances_witness :
  In (Commit (Some 1) true)
     [Commit None true; Commit (Some 1) true; Commit (Some 1) false].
Proof.
  apply (requests_use_connected_instances
           [Commit None true; Commit (Some 1) true; Commit (Some 1) false]
           (stats_request 1)).
  left. reflexivity.
Defined.

Lemma only_null_payloads_escape_witness :
  escaped (run [StatsEvent truncated; StatsEvent "{}"; StatsEvent "5"]) = [].
Proof.
  apply (proj2 (only_null_payloads_escape
                  [StatsEvent truncated; StatsEvent "{}"; StatsEvent "5"])).
  intros data [Hin | [Hin | [Hin | []]]]; injection Hin as <-;
    vm_compute; discriminate.
Defined.

End MoreWitnesses.
